(** * ecoflow: request signing, REST envelope handling and MQTT telemetry

    A shallow embedding of the Go package [ecoflow] (the REST client,
    mqtt_ecoflow.go and protobuf.go): the canonical query string and HMAC
    signature of the REST client, the envelope interpretation of the device
    operations, the broker credential exchange, and the MQTT message handler
    with its per-device statistics.

    Conventions.
    - A Go [string] and a Go [[]byte] are both a Rocq [string], a sequence of
      8-bit [ascii] bytes.
    - A Go [map[string]interface{}] is the list of its entries in the order one
      [range] over it visits them; Go leaves that order unspecified, so
      statements about maps are made for every such order.
    - A Go [(T, error)] result is [result T]; a runtime panic is an explicit
      outcome of the functions that can raise one.
    - Standard-library and third-party calls whose code is not part of the
      package (strconv.FormatFloat, crypto/hmac, encoding/json, net/http,
      protobuf, the clock and the random source) are fields of [Externals]. *)

From stdpp Require Import base list strings sorting pretty gmap.
From Stdlib Require Import Ascii ZArith Floats.

Set Warnings "-register-all".

Open Scope Z_scope.
Open Scope string_scope.

(** ** Go values *)

(** The text of a Go [error]. *)
Definition error := string.

Inductive result (A : Type) : Type :=
| Ok (a : A)
| Err (e : error).
Arguments Ok {A} a.
Arguments Err {A} e.

(** A dynamically typed value, [interface{}], restricted to the dynamic types
    the package inspects: [nil], [map[string]interface{}], [[]interface{}],
    [string], [int], [float64], [bool] and [time.Time]. *)
Inductive value : Type :=
| VNil
| VMap (m : list (string * value))
| VSlice (l : list value)
| VString (s : string)
| VInt (n : Z)
| VFloat (f : float)
| VBool (b : bool)
| VTime (t : Z).

Definition gomap := list (string * value).

(** [m[k]] with the comma-ok form. *)
Fixpoint mapaccess (m : gomap) (k : string) : option value :=
  match m with
  | [] => None
  | (k', v) :: m' => if decide (k' = k) then Some v else mapaccess m' k
  end.

(** [m[k] = v]. *)
Fixpoint mapassign (m : gomap) (k : string) (v : value) : gomap :=
  match m with
  | [] => [(k, v)]
  | (k', v') :: m' =>
      if decide (k' = k) then (k, v) :: m' else (k', v') :: mapassign m' k v
  end.

(** ** Generated protobuf messages

    Modelled from the spec: the message types produced by [protoc] from
    platform.proto, powerstream.proto and ecopacket.proto are not part of the
    sources; only the fields the handler reads are kept, and a power-stream
    sub-record is kept as its undecoded content. *)
Record Header := { CmdId : Z; Pdata : string }.
Record SendHeaderMsg := { Msg : option Header }.
Record InverterHeartbeat := {
  DynamicWatts : Z; LowerLimit : Z; PermanentWatts : Z; UpperLimit : Z;
  InstallCountry : Z; InvOnOff : Z;
  Pv1OpVolt : Z; Pv1InputVolt : Z; Pv1InputWatts : Z;
  Pv2OpVolt : Z; Pv2InputVolt : Z; Pv2InputWatts : Z;
  Timestamp : Z }.
Record PowerStream := { powerStreamContent : string }.
Record PowerPack := { SysPowerStream : list PowerStream }.

(** [GetCmdId] is nil-safe, as every generated getter. *)
Definition GetCmdId (h : option Header) : Z :=
  match h with Some h => CmdId h | None => 0 end.

(** ** Structures of the package *)

Record DeviceInfo := { SN : string; Online : Z }.

Record DeviceListResponse := {
  dlCode : string; dlMessage : string; Devices : list DeviceInfo;
  EagleEyeTraceID : string; Tid : string }.

Record signParameters := {
  nonce : string; timestamp : string; accessKey : string;
  sign : string; queryParams : string }.

Record MqttConnectionConfig := {
  CertificateAccount : string; CertificatePassword : string;
  Url : string; Port : string; Protocol : string; UserId : string }.

(** [MqttLoginResponse], with the fields of [Data.User] the package reads. *)
Record MqttLoginResponse := {
  mlCode : string; mlMessage : string;
  mlUserId : string; mlToken : string }.

Record MqttCredentialsResponse := {
  mcCode : string; mcMessage : string; mcData : MqttConnectionConfig }.

(** ** The outside world *)

Record Request := {
  reqMethod : string; reqURL : string; reqBody : option string;
  reqHeader : list (string * string) }.

Record Response := {
  StatusCode : Z; Status : string;
  Body : result string (* what io.ReadAll(resp.Body) returns *) }.

Record Externals := {
  (** strconv.FormatFloat(v, 'f', -1, 64) *)
  FormatFloat : float -> string;
  (** the raw digest of HMAC-SHA256, key first *)
  hmac_sha256 : string -> string -> string;
  (** rand.Intn(n) and time.Now() of the call at hand *)
  rand_Intn : Z -> Z;
  time_Now : Z;
  (** encoding/json and encoding/base64 *)
  json_Marshal : value -> string;
  json_Unmarshal_map : string -> result gomap;
  json_Unmarshal_DeviceListResponse : string -> result DeviceListResponse;
  json_Unmarshal_MqttLoginResponse : string -> result (option MqttLoginResponse);
  json_Unmarshal_MqttCredentialsResponse :
    string -> result (option MqttCredentialsResponse);
  base64_StdEncoding : string -> string;
  (** http.NewRequestWithContext followed by http.Client.Do; either can fail,
      and a cancelled context is one of the failures *)
  http_Do : Request -> result Response;
  (** proto.Unmarshal at the three message types *)
  proto_Unmarshal_SendHeaderMsg : string -> result SendHeaderMsg;
  proto_Unmarshal_InverterHeartbeat : string -> result InverterHeartbeat;
  proto_Unmarshal_PowerPack : string -> result PowerPack;
  (** log.IsDebugLevel() *)
  log_IsDebugLevel : bool }.

(** ** strconv, strings, sort, bytes *)

Definition Itoa (n : Z) : string := pretty n.

Definition FormatBool (b : bool) : string := if b then "true" else "false".

Fixpoint strings_Join (elems : list string) (sep : string) : string :=
  match elems with
  | [] => ""
  | [x] => x
  | x :: rest => x +:+ sep +:+ strings_Join rest sep
  end.

(** [sort.Strings] orders by [<] on strings, the byte-wise lexicographic order
    [String.le]; equal strings are indistinguishable, so the outcome does not
    depend on the algorithm. *)
Definition sort_Strings (l : list string) : list string :=
  merge_sort String.le l.

(** [hex.EncodeToString]: two digits of [hextable] per byte, high nibble
    first. *)
Definition hextable : string := "0123456789abcdef".

Definition hexdigit (n : N) : ascii :=
  default "0"%char (String.get (N.to_nat n) hextable).

Fixpoint hex_EncodeToString (src : string) : string :=
  match src with
  | "" => ""
  | String v rest =>
      String (hexdigit (N.shiftr (N_of_ascii v) 4))
        (String (hexdigit (N.land (N_of_ascii v) 15)) (hex_EncodeToString rest))
  end.

(** [strings.Split(s, sep)] for a one-byte separator: always at least one
    piece. *)
Fixpoint strings_Split (s : string) (sep : ascii) : list string :=
  match s with
  | "" => [""]
  | String c s' =>
      if decide (c = sep) then "" :: strings_Split s' sep
      else match strings_Split s' sep with
           | [] => [String c ""]
           | piece :: pieces => String c piece :: pieces
           end
  end.

(** [bytes.Index(s, sep)]: the index of the first occurrence of [sep] in [s],
    or [-1]. *)
Fixpoint bytes_Index_from (i : Z) (s sep : string) : Z :=
  if String.prefix sep s then i
  else match s with
       | "" => -1
       | String _ s' => bytes_Index_from (i + 1) s' sep
       end.

Definition bytes_Index (s sep : string) : Z := bytes_Index_from 0 s sep.

Definition len (s : string) : Z := Z.of_nat (String.length s).

(** The slice expression [s[lo:hi]]; [None] is the run-time panic for bounds
    out of range. *)
Definition slice (s : string) (lo hi : Z) : option string :=
  if decide (0 <= lo /\ lo <= hi /\ hi <= len s)
  then Some (String.substring (Z.to_nat lo) (Z.to_nat (hi - lo)) s)
  else None.

(** Arithmetic of [uint64] and [int]. *)
Definition wrap_uint64 (z : Z) : Z := z mod 2 ^ 64.
Definition wrap_int (z : Z) : Z := (z + 2 ^ 63) mod 2 ^ 64 - 2 ^ 63.

(** ** The REST client: signature *)

Section Signing.
Context (X : Externals).

Fixpoint processValue (prefix : string) (val : value) : list string :=
  match val with
  | VMap v =>
      (fix range (m : gomap) : list string :=
         match m with
         | [] => []
         | (k, nestedValue) :: m' =>
             (processValue (prefix +:+ "." +:+ k) nestedValue ++ range m')%list
         end) v
  | VSlice v =>
      (fix range (i : Z) (l : list value) : list string :=
         match l with
         | [] => []
         | item :: l' =>
             (processValue (prefix +:+ "[" +:+ Itoa i +:+ "]") item
                ++ range (i + 1) l')%list
         end) 0 v
  | VString v => [prefix +:+ "=" +:+ v]
  | VInt v => [prefix +:+ "=" +:+ Itoa v]
  | VFloat v => [prefix +:+ "=" +:+ FormatFloat X v]
  | VBool v => [prefix +:+ "=" +:+ FormatBool v]
  | VNil | VTime _ => []
  end.

(** The flattened pairs in the order the [range] loop appends them. *)
Definition flattenParams (data : gomap) : list string :=
  flat_map (fun kv => processValue kv.1 kv.2) data.

Definition generateQueryParams (data : gomap) : string :=
  strings_Join (sort_Strings (flattenParams data)) "&".

Definition encryptHmacSHA256 (message secret : string) : string :=
  hex_EncodeToString (hmac_sha256 X secret message).

(** timestamp is a UTC timestamp (in nano) *)
Definition generateTimestamp : string := Itoa (time_Now X).

(** nonce is a random int with 6 digits *)
Definition generateNonce : string := Itoa (rand_Intn X 900000 + 100000).

End Signing.

Definition accessKeyHeader := "accessKey".
Definition nonceHeader := "nonce".
Definition timestampHeader := "timestamp".
Definition signHeader := "sign".

Definition ecoflowAPI := "https://api.ecoflow.com".
Definition deviceListPath := "/iot-open/sign/device/list".
Definition getAllQuotePath := "/iot-open/sign/device/quota/all".

(** [requestParameters] is [None] for a nil map. *)
Record HttpRequest := {
  method : string; uri : string; requestParameters : option gomap;
  hrAccessKey : string; hrSecretKey : string }.

Record Client := { accessToken : string; secretToken : string }.

Section Rest.
Context (X : Externals).

Definition getKeyValueString (r : HttpRequest)
    (queryString nonce timestamp : string) : string :=
  let keyValueString :=
    accessKeyHeader +:+ "=" +:+ hrAccessKey r +:+ "&" +:+
    nonceHeader +:+ "=" +:+ nonce +:+ "&" +:+
    timestampHeader +:+ "=" +:+ timestamp in
  if decide (queryString <> "")
  then queryString +:+ "&" +:+ keyValueString
  else keyValueString.

Definition generateSign (r : HttpRequest)
    (queryString nonce timestamp : string) : string :=
  let keyValueString := getKeyValueString r queryString nonce timestamp in
  encryptHmacSHA256 X keyValueString (hrSecretKey r).

Definition generateSignParameters (r : HttpRequest) : signParameters :=
  let nonce := generateNonce X in
  let timestamp := generateTimestamp X in
  let queryParams :=
    generateQueryParams X (default [] (requestParameters r)) in
  {| queryParams := queryParams;
     nonce := nonce;
     timestamp := timestamp;
     accessKey := hrAccessKey r;
     sign := generateSign r queryParams nonce timestamp |}.

Definition NewHttpRequest (method uri : string) (params : option gomap)
    (accessKey secretKey : string) : HttpRequest :=
  {| method := method; uri := uri; requestParameters := params;
     hrAccessKey := accessKey; hrSecretKey := secretKey |}.

Definition signHeaders (r : HttpRequest) (signParams : signParameters)
    : list (string * string) :=
  [(accessKeyHeader, hrAccessKey r); (nonceHeader, nonce signParams);
   (timestampHeader, timestamp signParams); (signHeader, sign signParams)].

Definition contentType : string * string :=
  ("Content-Type", "application/json;charset=UTF-8").

Definition Execute (r : HttpRequest) : result string :=
  let signParams := generateSignParameters r in
  let requestURI := uri r +:+ "?" +:+ queryParams signParams in
  let reqBody :=
    match requestParameters r with
    | Some params => json_Marshal X (VMap params)
    | None => ""
    end in
  let httpReq :=
    if decide (method r = "GET") then
      Some {| reqMethod := "GET"; reqURL := requestURI; reqBody := None;
              reqHeader := signHeaders r signParams |}
    else if decide (method r = "POST") then
      Some {| reqMethod := "POST"; reqURL := uri r; reqBody := Some reqBody;
              reqHeader := contentType :: signHeaders r signParams |}
    else if decide (method r = "PUT") then
      Some {| reqMethod := "PUT"; reqURL := uri r; reqBody := Some reqBody;
              reqHeader := contentType :: signHeaders r signParams |}
    else None in
  match httpReq with
  | None => Err "unsupported http method"
  | Some httpReq =>
      match http_Do X httpReq with
      | Err err => Err err
      | Ok resp =>
          if decide (StatusCode resp <> 200) then
            Err ("response status is failed|url=" +:+ requestURI +:+
                 ", statusCode=" +:+ Status resp)
          else Body resp
      end
  end.

(** GetDeviceList executes a request to get the list of devises linked to
    the user account. If the response parameter "code" is not 0, then there
    is an error. Both components of the Go result are kept: the response
    pointer and the error. *)
Definition GetDeviceList (c : Client)
    : option DeviceListResponse * option error :=
  let request :=
    NewHttpRequest "GET" (ecoflowAPI +:+ deviceListPath) None
      (accessToken c) (secretToken c) in
  match Execute request with
  | Err err => (None, Some err)
  | Ok response =>
      match json_Unmarshal_DeviceListResponse X response with
      | Err err => (None, Some err)
      | Ok deviceResponse =>
          if decide (dlCode deviceResponse <> "0") then
            (Some deviceResponse,
             Some ("can't get device list, error code: " +:+
                   dlCode deviceResponse +:+ ", error message: " +:+
                   dlMessage deviceResponse))
          else (Some deviceResponse, None)
      end
  end.

(** The comma-ok type assertions [v.(string)] and
    [v.(map[string]interface{})] on the result of a map access; a missing
    key gives the nil interface, which satisfies neither. *)
Definition assert_string (v : option value) : string * bool :=
  match v with Some (VString s) => (s, true) | _ => ("", false) end.

Definition assert_map (v : option value) : option gomap :=
  match v with Some (VMap m) => Some m | _ => None end.

Definition GetDeviceInfo (c : Client) (deviceSn specific : string)
    : result gomap :=
  let requestParams := mapassign [] "sn" (VString deviceSn) in
  let request :=
    NewHttpRequest "GET" (ecoflowAPI +:+ getAllQuotePath)
      (Some requestParams) (accessToken c) (secretToken c) in
  match Execute request with
  | Err err => Err err
  | Ok response =>
      match json_Unmarshal_map X response with
      | Err err => Err err
      | Ok jsonData =>
          let '(code, ok) := assert_string (mapaccess jsonData "code") in
          if decide (ok = false \/ code <> "0") then
            Err ("can't get parameters, error code " +:+ code)
          else if decide (specific <> "") then
            match assert_map (mapaccess jsonData specific) with
            | Some tmpMap => Ok tmpMap
            | None => Err "response is not valid, can't process it"
            end
          else Ok jsonData
      end
  end.

Definition GetDeviceAllParameters (c : Client) (deviceSn specific : string)
    : result gomap :=
  GetDeviceInfo c deviceSn "data".

End Rest.

(** ** mqtt_ecoflow.go: broker credential exchange *)

(** The outcome of a call that can panic. *)
Inductive outcome (A : Type) : Type :=
| Returns (a : A)
| Panics (reason : string).
Arguments Returns {A} a.
Arguments Panics {A} reason.

Definition nilDereference : string :=
  "invalid memory address or nil pointer dereference".

Definition ecoflowLoginUrl := "https://api.ecoflow.com/auth/login".
Definition ecoflowScene := "IOT_APP".
Definition ecoflowUserType := "ECOFLOW".
Definition ecoflowCertificationUrl :=
  "https://api.ecoflow.com/iot-auth/app/certification".

(** [c.UserId = userId] *)
Definition setUserId (c : MqttConnectionConfig) (userId : string)
    : MqttConnectionConfig :=
  {| CertificateAccount := CertificateAccount c;
     CertificatePassword := CertificatePassword c;
     Url := Url c; Port := Port c; Protocol := Protocol c;
     UserId := userId |}.

Section Broker.
Context (X : Externals).

(** The result pointer is [None] when [json.Unmarshal] leaves the nil
    pointer untouched (the document [null]). The [map[string]string] of
    parameters is written as a [gomap] of strings. *)
Definition getLoginResponse (email password : string)
    : result (option MqttLoginResponse) :=
  let params := mapassign [] "email" (VString email) in
  let params :=
    mapassign params "password" (VString (base64_StdEncoding X password)) in
  let params := mapassign params "scene" (VString ecoflowScene) in
  let params := mapassign params "userType" (VString ecoflowUserType) in
  let jsonParams := json_Marshal X (VMap params) in
  let loginReq :=
    {| reqMethod := "POST"; reqURL := ecoflowLoginUrl;
       reqBody := Some jsonParams;
       reqHeader := [("lang", "en_US"); ("content-type", "application/json")] |} in
  match http_Do X loginReq with
  | Err err => Err err
  | Ok resp =>
      match Body resp with
      | Err err => Err err
      | Ok responseBody =>
          match json_Unmarshal_MqttLoginResponse X responseBody with
          | Err err => Err err
          | Ok mqttLoginResponse => Ok mqttLoginResponse
          end
      end
  end.

Definition getMqttCredentials (email password : string)
    : outcome (result MqttConnectionConfig) :=
  match getLoginResponse email password with
  | Err err => Returns (Err err)
  | Ok None => Panics nilDereference
  | Ok (Some mqttLoginResponse) =>
      let params := mapassign [] "userId" (VString (mlUserId mqttLoginResponse)) in
      let jsonParams := json_Marshal X (VMap params) in
      let certReq :=
        {| reqMethod := "GET"; reqURL := ecoflowCertificationUrl;
           reqBody := Some jsonParams;
           reqHeader :=
             [("Authorization", "Bearer " +:+ mlToken mqttLoginResponse);
              ("lang", "en_US")] |} in
      match http_Do X certReq with
      | Err err => Returns (Err err)
      | Ok resp =>
          match Body resp with
          | Err err => Returns (Err err)
          | Ok responseBody =>
              match json_Unmarshal_MqttCredentialsResponse X responseBody with
              | Err err => Returns (Err err)
              | Ok None => Panics nilDereference
              | Ok (Some mqttConn) =>
                  let c := mcData mqttConn in
                  Returns (Ok (setUserId c (mlUserId mqttLoginResponse)))
              end
          end
      end
  end.

End Broker.

(** ** protobuf.go: the MQTT message handler *)

(** [statMqtt] without its mutex: every invocation of the handler releases the
    mutex it took ([defer stat.mu.Unlock()]), so the mutex is free whenever
    one invocation runs after another. The mutex is part of the interleaving
    semantics further down. *)
Record statMqtt := { mqttCounter : Z; httpCounter : Z }.

Inductive object :=
| InverterHeartbeatObject (ih : InverterHeartbeat)
| PowerStreamObject (p : PowerStream).

Record Entry := { entryObject : object; serialNumber : string }.

(** A package variable of interface or function type is nil until it is
    assigned. The code behind it is the application's; a call is recorded. *)
Inductive hook := hook_nil | hook_set.

Inductive Event :=
| CallHandlerEvent (e : Entry)
| CallbackEvent (serialNumber : string) (data : gomap).

(** The package variables, the [statMqtt] objects the map points to (a pointer
    is an index of [heap]), and the calls made to the collaborators. *)
Record State := {
  caller : hook;
  Callback : hook;
  mqttStatMap : gmap string Z;
  mapStatMqtt : gmap string nat;
  heap : list statMqtt;
  trace : list Event }.

Record Message := { Topic : string; Payload : string; Retained : bool }.

Definition M (A : Type) : Type := State -> State * outcome A.

Definition ret {A} (a : A) : M A := fun st => (st, Returns a).
Definition panic {A} (reason : string) : M A := fun st => (st, Panics reason).
Definition bind {A B} (m : M A) (k : A -> M B) : M B :=
  fun st =>
    match m st with
    | (st', Returns a) => k a st'
    | (st', Panics reason) => (st', Panics reason)
    end.

Declare Scope go_scope.
Delimit Scope go_scope with go.
Notation "x <- m ;; k" := (bind m (fun x => k))
  (at level 100, m at next level, right associativity) : go_scope.
Notation "m ;; k" := (bind m (fun _ => k))
  (at level 100, right associativity) : go_scope.

Definition record_event (ev : Event) : M unit := fun st =>
  ({| caller := caller st; Callback := Callback st;
      mqttStatMap := mqttStatMap st; mapStatMqtt := mapStatMqtt st;
      heap := heap st; trace := trace st ++ [ev] |}, Returns tt).

(** [caller.CallHandler(e)] *)
Definition CallHandler (e : Entry) : M unit := fun st =>
  match caller st with
  | hook_nil => (st, Panics nilDereference)
  | hook_set => record_event (CallHandlerEvent e) st
  end.

(** [Callback(serialNumber, data)] *)
Definition callCallback (serialNumber : string) (data : gomap) : M unit :=
  fun st =>
    match Callback st with
    | hook_nil => (st, Panics nilDereference)
    | hook_set => record_event (CallbackEvent serialNumber data) st
    end.

Fixpoint forEach {A} (l : list A) (body : A -> M unit) : M unit :=
  match l with
  | [] => ret tt
  | x :: l' => (body x ;; forEach l' body)%go
  end.

(** getSnFromTopic extract serial number from topic *)
Definition getSnFromTopic (topic : string) : string :=
  let topicStr := strings_Split topic "/"%char in
  default "" (last topicStr).

Definition GetStatEntry (serialNumber : string) : M nat := fun st =>
  match mapStatMqtt st !! serialNumber with
  | Some s => (st, Returns s)
  | None =>
      let stat := length (heap st) in
      ({| caller := caller st; Callback := Callback st;
          mqttStatMap := mqttStatMap st;
          mapStatMqtt := <[serialNumber := stat]> (mapStatMqtt st);
          heap := heap st ++ [{| mqttCounter := 0; httpCounter := 0 |}];
          trace := trace st |}, Returns stat)
  end.

(** [stat.mqttCounter++] *)
Definition incrMqttCounter (stat : nat) : M unit := fun st =>
  ({| caller := caller st; Callback := Callback st;
      mqttStatMap := mqttStatMap st; mapStatMqtt := mapStatMqtt st;
      heap :=
        alter (fun s => {| mqttCounter := wrap_uint64 (mqttCounter s + 1);
                           httpCounter := httpCounter s |}) stat (heap st);
      trace := trace st |}, Returns tt).

(** The Load and Store on [mqttStatMap]. *)
Definition countTopic (topic : string) : M unit := fun st =>
  let n :=
    match mqttStatMap st !! topic with
    | Some e => wrap_int (e + 1)
    | None => 1
    end in
  ({| caller := caller st; Callback := Callback st;
      mqttStatMap := <[topic := n]> (mqttStatMap st);
      mapStatMqtt := mapStatMqtt st; heap := heap st;
      trace := trace st |}, Returns tt).

Definition wrongMap : string :=
  "interface conversion: interface {} is not map[string]interface {}".

Definition wrongString : string :=
  "interface conversion: interface {} is not string".

(** The unguarded assertions [v.(float64)], [v.(string)] and
    [v.(map[string]interface{})]. *)
Definition must_float64 (v : option value) : M float :=
  match v with
  | Some (VFloat f) => ret f
  | _ => panic "interface conversion: interface {} is not float64"
  end.

Definition must_string (v : option value) : M string :=
  match v with
  | Some (VString s) => ret s
  | _ => panic wrongString
  end.

Definition must_map (v : option value) : M gomap :=
  match v with
  | Some (VMap m) => ret m
  | _ => panic wrongMap
  end.

Definition must_slice (s : string) (lo hi : Z) : M string :=
  match slice s lo hi with
  | Some b => ret b
  | None => panic "slice bounds out of range"
  end.

Section Handler.
Context (X : Externals).

(** Logging is not modelled; the statements that only log are left out. *)
Definition DisplayPayload (sn payload : string) : M bool :=
  match proto_Unmarshal_SendHeaderMsg X payload with
  | Err _ => ret true
  | Ok platform =>
      let cmdId := GetCmdId (Msg platform) in
      if decide (cmdId = 1) then
        match Msg platform with
        | None => panic nilDereference
        | Some msg =>
            match proto_Unmarshal_InverterHeartbeat X (Pdata msg) with
            | Err _ => ret true
            | Ok ih =>
                (CallHandler {| entryObject := InverterHeartbeatObject ih;
                                serialNumber := sn |} ;;
                 ret true)%go
            end
        end
      else if decide (cmdId = 32) then
        match Msg platform with
        | None => panic nilDereference
        | Some msg =>
            match proto_Unmarshal_PowerPack X (Pdata msg) with
            | Err _ => ret true
            | Ok pp =>
                (forEach (SysPowerStream pp) (fun p =>
                   CallHandler {| entryObject := PowerStreamObject p;
                                  serialNumber := sn |}) ;;
                 ret true)%go
            end
        end
      else ret false
  end.

(** The debug output of the JSON branch, with its four assertions. *)
Definition debugEnvelope (data : gomap) : M unit :=
  if log_IsDebugLevel X then
    (_ <- must_float64 (mapaccess data "cmdId") ;;
     _ <- must_float64 (mapaccess data "cmdFunc") ;;
     _ <- must_string (mapaccess data "version") ;;
     _ <- must_float64 (mapaccess data "id") ;;
     ret tt)%go
  else ret tt.

(** The JSON branch, from the decoded [data] to the call of [Callback]. *)
Definition handleJSON (serialNumber : string) (data : gomap) : M unit :=
  (debugEnvelope data ;;
   data <- match mapaccess data "params" with
           | Some _ => must_map (mapaccess data "params")
           | None => ret data
           end ;;
   let data :=
     match mapaccess data "serial_number" with
     | Some _ => data
     | None => mapassign data "serial_number" (VString serialNumber)
     end in
   let data :=
     match mapaccess data "timestamp" with
     | Some _ => data
     | None => mapassign data "timestamp" (VTime (time_Now X))
     end in
   callCallback serialNumber data)%go.

(** The binary branch: at most two frames, each ending after an occurrence
    of the serial number. *)
Definition handleBinary (serialNumber payload : string) : M unit :=
  let start := 0 in
  let end_ := len payload in
  let index := bytes_Index payload serialNumber in
  let end_ := if decide (index <> -1) then index + len serialNumber else end_ in
  (frame <- must_slice payload start end_ ;;
   DisplayPayload serialNumber frame ;;
   let start := end_ in
   if decide (len payload > index + len serialNumber) then
     rest <- must_slice payload end_ (len payload) ;;
     let index := bytes_Index rest serialNumber in
     let end_ :=
       if decide (index <> -1) then end_ + index + len serialNumber
       else len payload in
     frame <- must_slice payload start end_ ;;
     DisplayPayload serialNumber frame ;;
     ret tt
   else ret tt)%go.

(** MessageHandler message handle called if MQTT event entered *)
Definition MessageHandler (msg : Message) : M unit :=
  let serialNumber := getSnFromTopic (Topic msg) in
  (stat <- GetStatEntry serialNumber ;;
   incrMqttCounter stat ;;
   countTopic (Topic msg) ;;
   let payload := Payload msg in
   match json_Unmarshal_map X payload with
   | Ok data => handleJSON serialNumber data
   | Err _ => handleBinary serialNumber payload
   end)%go.

End Handler.

(** ** Concurrent invocations of the handler

    The statements of [MessageHandler] that touch the per-device statistics
    (the call of [GetStatEntry], [stat.mu.Lock()], [stat.mqttCounter++] and the
    deferred [stat.mu.Unlock()]), as atomic steps of a thread over the shared
    memory. Executions are the sequentially consistent interleavings of these
    steps; every one of them is an execution Go allows. *)
Module Interleaving.

Record cell := { stat : statMqtt; mu : bool }.

Record shared := { smap : gmap string nat; sheap : list cell }.

(** Where a thread stands. *)
Inductive pc :=
| AtLookup                      (* s, ok := mapStatMqtt[serialNumber] *)
| AtStore                       (* stat := &statMqtt{}; mapStatMqtt[serialNumber] = stat *)
| AtLock (p : nat)              (* stat.mu.Lock() *)
| AtLoad (p : nat)              (* stat.mqttCounter++, the read *)
| AtWrite (p : nat) (v : Z)     (* stat.mqttCounter++, the write *)
| AtUnlock (p : nat)            (* the rest of the handler, then stat.mu.Unlock() *)
| Done.

Definition set_cell (s : shared) (p : nat) (f : cell -> cell) : shared :=
  {| smap := smap s; sheap := alter f p (sheap s) |}.

(** One step of a thread that handles a message of device [sn]; [None] when
    the thread cannot move (it waits for the mutex, or it has returned). *)
Definition step (sn : string) (at_ : pc) (s : shared) : option (pc * shared) :=
  match at_ with
  | AtLookup =>
      match smap s !! sn with
      | Some p => Some (AtLock p, s)
      | None => Some (AtStore, s)
      end
  | AtStore =>
      let p := length (sheap s) in
      Some (AtLock p,
            {| smap := <[sn := p]> (smap s);
               sheap := sheap s ++
                 [{| stat := {| mqttCounter := 0; httpCounter := 0 |};
                     mu := false |}] |})
  | AtLock p =>
      match sheap s !! p with
      | Some c =>
          if mu c then None
          else Some (AtLoad p,
                     set_cell s p (fun c => {| stat := stat c; mu := true |}))
      | None => None
      end
  | AtLoad p =>
      match sheap s !! p with
      | Some c => Some (AtWrite p (mqttCounter (stat c)), s)
      | None => None
      end
  | AtWrite p v =>
      Some (AtUnlock p,
            set_cell s p (fun c =>
              {| stat := {| mqttCounter := wrap_uint64 (v + 1);
                            httpCounter := httpCounter (stat c) |};
                 mu := mu c |}))
  | AtUnlock p =>
      Some (Done, set_cell s p (fun c => {| stat := stat c; mu := false |}))
  | Done => None
  end.

(** Run the threads along a schedule, a list of thread indices; [None] when
    the schedule picks a thread that cannot move. *)
Fixpoint run (sn : string) (sched : list nat) (s : shared) (threads : list pc)
    : option (shared * list pc) :=
  match sched with
  | [] => Some (s, threads)
  | i :: sched' =>
      match threads !! i with
      | None => None
      | Some at_ =>
          match step sn at_ s with
          | None => None
          | Some (at', s') => run sn sched' s' (<[i := at']> threads)
          end
      end
  end.

(** The broker counter of device [sn], as [StatMqtt] reads it. *)
Definition counter (sn : string) (s : shared) : option Z :=
  match smap s !! sn with
  | Some p => mqttCounter <$> (stat <$> sheap s !! p)
  | None => None
  end.

Definition all_done (threads : list pc) : bool :=
  forallb (fun at_ => match at_ with Done => true | _ => false end) threads.

End Interleaving.

(** ** Definitions used by the statements *)

(** The loop of [processValue] over a slice, from index [i] on. *)
Fixpoint processItems (X : Externals) (prefix : string) (i : Z)
    (l : list value) : list string :=
  match l with
  | [] => []
  | item :: l' =>
      (processValue X (prefix +:+ "[" +:+ Itoa i +:+ "]") item
         ++ processItems X prefix (i + 1) l')%list
  end.

(** [same_value v v']: [v] and [v'] are one and the same Go value, each map
    inside listed in the order of some iteration over it. Maps at every depth
    may be listed in a different order; slices keep their order. *)
Inductive same_value : value -> value -> Prop :=
| same_refl v : same_value v v
| same_VMap m m' : same_entries m m' -> same_value (VMap m) (VMap m')
| same_VSlice l l' : same_items l l' -> same_value (VSlice l) (VSlice l')
with same_entries : gomap -> gomap -> Prop :=
| same_entries_nil : same_entries [] []
| same_entries_skip k v v' m m' :
    same_value v v' -> same_entries m m' ->
    same_entries ((k, v) :: m) ((k, v') :: m')
| same_entries_swap e1 e2 m : same_entries (e1 :: e2 :: m) (e2 :: e1 :: m)
| same_entries_trans m1 m2 m3 :
    same_entries m1 m2 -> same_entries m2 m3 -> same_entries m1 m3
with same_items : list value -> list value -> Prop :=
| same_items_nil : same_items [] []
| same_items_cons v v' l l' :
    same_value v v' -> same_items l l' -> same_items (v :: l) (v' :: l').

Scheme same_value_mut := Minimality for same_value Sort Prop
  with same_entries_mut := Minimality for same_entries Sort Prop
  with same_items_mut := Minimality for same_items Sort Prop.
Combined Scheme same_mutind
  from same_value_mut, same_entries_mut, same_items_mut.

(** The signing base string in the words of the protocol description. *)
Definition signingBase (canonicalQueryString accessKey nonce timestamp : string)
    : string :=
  let triple :=
    "accessKey=" +:+ accessKey +:+ "&nonce=" +:+ nonce +:+
    "&timestamp=" +:+ timestamp in
  match canonicalQueryString with
  | "" => triple
  | _ => canonicalQueryString +:+ "&" +:+ triple
  end.

Definition is_lower_hex (c : ascii) : bool :=
  bool_decide (c ∈ String.list_ascii_of_string "0123456789abcdef").

(** [contains s sub]: [sub] occurs verbatim in [s]. *)
Definition contains (s sub : string) : Prop :=
  exists before after, s = before +:+ sub +:+ after.

(** The requests the operations issue. *)
Definition deviceListRequest (c : Client) : HttpRequest :=
  NewHttpRequest "GET" (ecoflowAPI +:+ deviceListPath) None
    (accessToken c) (secretToken c).

Definition deviceInfoRequest (c : Client) (deviceSn : string) : HttpRequest :=
  NewHttpRequest "GET" (ecoflowAPI +:+ getAllQuotePath)
    (Some (mapassign [] "sn" (VString deviceSn)))
    (accessToken c) (secretToken c).

Definition loginParams (X : Externals) (email password : string) : gomap :=
  [("email", VString email);
   ("password", VString (base64_StdEncoding X password));
   ("scene", VString ecoflowScene);
   ("userType", VString ecoflowUserType)].

Definition loginRequest (X : Externals) (email password : string) : Request :=
  {| reqMethod := "POST"; reqURL := ecoflowLoginUrl;
     reqBody := Some (json_Marshal X (VMap (loginParams X email password)));
     reqHeader := [("lang", "en_US"); ("content-type", "application/json")] |}.

Definition certificationRequest (X : Externals) (login : MqttLoginResponse)
    : Request :=
  {| reqMethod := "GET"; reqURL := ecoflowCertificationUrl;
     reqBody := Some (json_Marshal X (VMap [("userId", VString (mlUserId login))]));
     reqHeader := [("Authorization", "Bearer " +:+ mlToken login);
                   ("lang", "en_US")] |}.

(** The records one binary frame stands for: one for command 1, one per
    sub-record for command 32, none for a frame that does not parse or has
    another command id. *)
Definition frameRecords (X : Externals) (sn frame : string) : list Entry :=
  match proto_Unmarshal_SendHeaderMsg X frame with
  | Ok {| Msg := Some msg |} =>
      if decide (CmdId msg = 1) then
        match proto_Unmarshal_InverterHeartbeat X (Pdata msg) with
        | Ok ih => [{| entryObject := InverterHeartbeatObject ih;
                       serialNumber := sn |}]
        | Err _ => []
        end
      else if decide (CmdId msg = 32) then
        match proto_Unmarshal_PowerPack X (Pdata msg) with
        | Ok pp =>
            map (fun p => {| entryObject := PowerStreamObject p;
                             serialNumber := sn |}) (SysPowerStream pp)
        | Err _ => []
        end
      else []
  | _ => []
  end.


(** Where the first frame ends, and the bytes after it up to the end of the
    second marker (or of the payload). *)
Definition firstEnd (sn payload : string) : Z :=
  if decide (bytes_Index payload sn <> -1)
  then bytes_Index payload sn + len sn
  else len payload.

Definition secondEnd (sn payload : string) : Z :=
  let rest :=
    String.substring (Z.to_nat (firstEnd sn payload))
      (Z.to_nat (len payload - firstEnd sn payload)) payload in
  if decide (bytes_Index rest sn <> -1)
  then firstEnd sn payload + bytes_Index rest sn + len sn
  else len payload.

Definition firstFrame (sn payload : string) : string :=
  String.substring 0 (Z.to_nat (firstEnd sn payload)) payload.

Definition secondFrame (sn payload : string) : string :=
  String.substring (Z.to_nat (firstEnd sn payload))
    (Z.to_nat (secondEnd sn payload - firstEnd sn payload)) payload.

(** The statements of [MessageHandler] that keep the statistics. *)
Definition recordBrokerMessage (msg : Message) : M unit :=
  (stat <- GetStatEntry (getSnFromTopic (Topic msg)) ;;
   incrMqttCounter stat ;;
   countTopic (Topic msg))%go.

Definition add_events (st : State) (evs : list Event) : State :=
  {| caller := caller st; Callback := Callback st;
     mqttStatMap := mqttStatMap st; mapStatMqtt := mapStatMqtt st;
     heap := heap st; trace := (trace st ++ evs)%list |}.



(** ** Environments of the examples *)

Definition noResponse : Request -> result Response :=
  fun _ => Err "dial tcp: connection refused".

(** An environment in which nothing outside the package answers. *)
Definition offline : Externals :=
  {| FormatFloat := fun _ => "0";
     hmac_sha256 := fun _ _ => "";
     rand_Intn := fun _ => 23456;
     time_Now := 1700000000000000000;
     json_Marshal := fun _ => "{}";
     json_Unmarshal_map := fun _ => Err "invalid character";
     json_Unmarshal_DeviceListResponse := fun _ => Err "invalid character";
     json_Unmarshal_MqttLoginResponse := fun _ => Err "invalid character";
     json_Unmarshal_MqttCredentialsResponse := fun _ => Err "invalid character";
     base64_StdEncoding := fun s => s;
     http_Do := noResponse;
     proto_Unmarshal_SendHeaderMsg := fun _ => Err "proto: cannot parse";
     proto_Unmarshal_InverterHeartbeat := fun _ => Err "proto: cannot parse";
     proto_Unmarshal_PowerPack := fun _ => Err "proto: cannot parse";
     log_IsDebugLevel := false |}.

(** [q s] is [s] between double quotes. *)
Definition q (s : string) : string :=
  String "034"%char (s +:+ String "034"%char "").

Definition ok200 (body : string) : result Response :=
  Ok {| StatusCode := 200; Status := "200 OK"; Body := Ok body |}.

(** The vendor rejects the login with code 2026 and the certification request
    that follows with code 401; both answers are well-formed envelopes. *)
Definition rejectedLoginBody : string :=
  "{" +:+ q "code" +:+ ":" +:+ q "2026" +:+ "," +:+
  q "message" +:+ ":" +:+ q "wrong password" +:+ "}".

Definition rejectedCertificationBody : string :=
  "{" +:+ q "code" +:+ ":" +:+ q "401" +:+ "," +:+
  q "message" +:+ ":" +:+ q "unauthorized" +:+ "}".

Definition rejectedLoginEnvelope : MqttLoginResponse :=
  {| mlCode := "2026"; mlMessage := "wrong password";
     mlUserId := ""; mlToken := "" |}.

Definition emptyConfig : MqttConnectionConfig :=
  {| CertificateAccount := ""; CertificatePassword := ""; Url := "";
     Port := ""; Protocol := ""; UserId := "" |}.

Definition rejectedLogin : Externals :=
  {| FormatFloat := FormatFloat offline;
     hmac_sha256 := hmac_sha256 offline;
     rand_Intn := rand_Intn offline;
     time_Now := time_Now offline;
     json_Marshal := json_Marshal offline;
     json_Unmarshal_map := json_Unmarshal_map offline;
     json_Unmarshal_DeviceListResponse := json_Unmarshal_DeviceListResponse offline;
     json_Unmarshal_MqttLoginResponse := fun body =>
       if decide (body = rejectedLoginBody) then Ok (Some rejectedLoginEnvelope)
       else Err "invalid character";
     json_Unmarshal_MqttCredentialsResponse := fun body =>
       if decide (body = rejectedCertificationBody)
       then Ok (Some {| mcCode := "401"; mcMessage := "unauthorized";
                        mcData := emptyConfig |})
       else Err "invalid character";
     base64_StdEncoding := base64_StdEncoding offline;
     http_Do := fun req =>
       if decide (reqURL req = ecoflowLoginUrl) then ok200 rejectedLoginBody
       else if decide (reqURL req = ecoflowCertificationUrl)
       then ok200 rejectedCertificationBody
       else noResponse req;
     proto_Unmarshal_SendHeaderMsg := proto_Unmarshal_SendHeaderMsg offline;
     proto_Unmarshal_InverterHeartbeat := proto_Unmarshal_InverterHeartbeat offline;
     proto_Unmarshal_PowerPack := proto_Unmarshal_PowerPack offline;
     log_IsDebugLevel := false |}.

(** The REST endpoints answer: one device in the list, and a quota document
    for it. *)
Definition deviceListBody : string :=
  "{" +:+ q "code" +:+ ":" +:+ q "0" +:+ "," +:+
  q "message" +:+ ":" +:+ q "Success" +:+ "," +:+
  q "data" +:+ ":[{" +:+ q "sn" +:+ ":" +:+ q "ABC" +:+ "," +:+
  q "online" +:+ ":1}]}".

Definition deviceListEnvelope : DeviceListResponse :=
  {| dlCode := "0"; dlMessage := "Success";
     Devices := [{| SN := "ABC"; Online := 1 |}];
     EagleEyeTraceID := ""; Tid := "" |}.

Definition quotaBody : string :=
  "{" +:+ q "code" +:+ ":" +:+ q "0" +:+ "," +:+
  q "data" +:+ ":{" +:+ q "pd.standbyMin" +:+ ":" +:+ q "30" +:+ "}}".

Definition quotaEnvelope : gomap :=
  [("code", VString "0"); ("data", VMap [("pd.standbyMin", VString "30")])].

Definition restAnswers : Externals :=
  {| FormatFloat := FormatFloat offline;
     hmac_sha256 := hmac_sha256 offline;
     rand_Intn := rand_Intn offline;
     time_Now := time_Now offline;
     json_Marshal := json_Marshal offline;
     json_Unmarshal_map := fun body =>
       if decide (body = quotaBody) then Ok quotaEnvelope
       else Err "invalid character";
     json_Unmarshal_DeviceListResponse := fun body =>
       if decide (body = deviceListBody) then Ok deviceListEnvelope
       else Err "invalid character";
     json_Unmarshal_MqttLoginResponse := json_Unmarshal_MqttLoginResponse offline;
     json_Unmarshal_MqttCredentialsResponse :=
       json_Unmarshal_MqttCredentialsResponse offline;
     base64_StdEncoding := base64_StdEncoding offline;
     http_Do := fun req =>
       if decide (reqURL req = ecoflowAPI +:+ deviceListPath +:+ "?")
       then ok200 deviceListBody
       else if decide (reqURL req = ecoflowAPI +:+ getAllQuotePath +:+ "?sn=ABC")
       then ok200 quotaBody
       else noResponse req;
     proto_Unmarshal_SendHeaderMsg := proto_Unmarshal_SendHeaderMsg offline;
     proto_Unmarshal_InverterHeartbeat := proto_Unmarshal_InverterHeartbeat offline;
     proto_Unmarshal_PowerPack := proto_Unmarshal_PowerPack offline;
     log_IsDebugLevel := false |}.

Definition someClient : Client :=
  {| accessToken := "AK"; secretToken := "SK" |}.

(** The broker delivers telemetry of device DEV1. The JSON document whose
    only member is params, with the number 5, decodes; of the binary frames,
    the one with content hb is a command 1 frame and everything else does not
    parse. *)
Definition params5Payload : string := "{" +:+ q "params" +:+ ":5}".

Definition heartbeat : InverterHeartbeat :=
  {| DynamicWatts := 0; LowerLimit := 0; PermanentWatts := 2000;
     UpperLimit := 100; InstallCountry := 0; InvOnOff := 1;
     Pv1OpVolt := 0; Pv1InputVolt := 0; Pv1InputWatts := 0;
     Pv2OpVolt := 0; Pv2InputVolt := 0; Pv2InputWatts := 0;
     Timestamp := 1700000000 |}.

Definition telemetry : Externals :=
  {| FormatFloat := FormatFloat offline;
     hmac_sha256 := hmac_sha256 offline;
     rand_Intn := rand_Intn offline;
     time_Now := time_Now offline;
     json_Marshal := json_Marshal offline;
     json_Unmarshal_map := fun body =>
       if decide (body = params5Payload) then Ok [("params", VFloat 5)]
       else Err "invalid character";
     json_Unmarshal_DeviceListResponse := json_Unmarshal_DeviceListResponse offline;
     json_Unmarshal_MqttLoginResponse := json_Unmarshal_MqttLoginResponse offline;
     json_Unmarshal_MqttCredentialsResponse :=
       json_Unmarshal_MqttCredentialsResponse offline;
     base64_StdEncoding := base64_StdEncoding offline;
     http_Do := noResponse;
     proto_Unmarshal_SendHeaderMsg := fun frame =>
       if decide (frame = "hbDEV1")
       then Ok {| Msg := Some {| CmdId := 1; Pdata := "hb" |} |}
       else Err "proto: cannot parse";
     proto_Unmarshal_InverterHeartbeat := fun pdata =>
       if decide (pdata = "hb") then Ok heartbeat
       else Err "proto: cannot parse";
     proto_Unmarshal_PowerPack := proto_Unmarshal_PowerPack offline;
     log_IsDebugLevel := false |}.

(** The JSON telemetry example of the protocol description: cmdId 1,
    cmdFunc 2 and a params object with x = 1, with debug logging on or off. *)
Definition examplePayload : string :=
  "{" +:+ q "cmdId" +:+ ":1," +:+ q "cmdFunc" +:+ ":2," +:+
  q "params" +:+ ":{" +:+ q "x" +:+ ":1}}".

Definition exampleTelemetry (debug : bool) : Externals :=
  {| FormatFloat := FormatFloat offline;
     hmac_sha256 := hmac_sha256 offline;
     rand_Intn := rand_Intn offline;
     time_Now := time_Now offline;
     json_Marshal := json_Marshal offline;
     json_Unmarshal_map := fun body =>
       if decide (body = examplePayload)
       then Ok [("cmdId", VFloat 1); ("cmdFunc", VFloat 2);
                ("params", VMap [("x", VFloat 1)])]
       else Err "invalid character";
     json_Unmarshal_DeviceListResponse := json_Unmarshal_DeviceListResponse offline;
     json_Unmarshal_MqttLoginResponse := json_Unmarshal_MqttLoginResponse offline;
     json_Unmarshal_MqttCredentialsResponse :=
       json_Unmarshal_MqttCredentialsResponse offline;
     base64_StdEncoding := base64_StdEncoding offline;
     http_Do := noResponse;
     proto_Unmarshal_SendHeaderMsg := proto_Unmarshal_SendHeaderMsg offline;
     proto_Unmarshal_InverterHeartbeat := proto_Unmarshal_InverterHeartbeat offline;
     proto_Unmarshal_PowerPack := proto_Unmarshal_PowerPack offline;
     log_IsDebugLevel := debug |}.

Definition dev1Topic : string := "/app/device/property/DEV1".

Definition exampleMessage : Message :=
  {| Topic := dev1Topic; Payload := examplePayload; Retained := false |}.

Definition params5Message : Message :=
  {| Topic := dev1Topic; Payload := params5Payload; Retained := false |}.

(** Two binary frames in one payload: bytes that do not parse, then a
    command 1 frame, each ending with the serial number. *)
Definition twoFramesMessage : Message :=
  {| Topic := dev1Topic; Payload := "xxDEV1hbDEV1"; Retained := false |}.

(** The package state after the application has installed both collaborators
    and before the first message. *)
Definition started : State :=
  {| caller := hook_set; Callback := hook_set;
     mqttStatMap := ∅; mapStatMqtt := ∅; heap := []; trace := [] |}.

(** The shared memory before the first message of any device, and a schedule
    of two threads in which both look the device up before either stores its
    entry. *)
Definition freshMemory : Interleaving.shared :=
  {| Interleaving.smap := ∅; Interleaving.sheap := [] |}.

Definition racingSchedule : list nat := [0; 1; 0; 1; 0; 0; 0; 0; 1; 1; 1; 1]%nat.

Definition oneAfterTheOther : list nat := [0; 0; 0; 0; 0; 0; 1; 1; 1; 1; 1]%nat.

(** The invariant of the recordings for a device whose entry [p] exists
    from the start with counter [c0]: every thread works on [p]; the counter
    is [c0] plus the number of threads past their increment; the mutex is
    held exactly when a thread is between [Lock] and [Unlock], and by one
    thread at most; a thread about to write holds the current counter. *)
Definition critical (at_ : Interleaving.pc) : bool :=
  match at_ with
  | Interleaving.AtLoad _ | Interleaving.AtWrite _ _ | Interleaving.AtUnlock _ =>
      true
  | _ => false
  end.

Definition works_on (p : nat) (at_ : Interleaving.pc) : bool :=
  match at_ with
  | Interleaving.AtLookup | Interleaving.Done => true
  | Interleaving.AtStore => false
  | Interleaving.AtLock r | Interleaving.AtLoad r | Interleaving.AtWrite r _
  | Interleaving.AtUnlock r => bool_decide (r = p)
  end.

Definition incremented (at_ : Interleaving.pc) : nat :=
  match at_ with
  | Interleaving.AtUnlock _ | Interleaving.Done => 1
  | _ => 0
  end.

Definition recorded (threads : list Interleaving.pc) : nat :=
  sum_list_with incremented threads.

Record stats_inv (sn : string) (p : nat) (c0 : Z) (s : Interleaving.shared)
    (threads : list Interleaving.pc) : Prop := {
  inv_map : Interleaving.smap s !! sn = Some p;
  inv_works : forall i a, threads !! i = Some a -> works_on p a = true;
  inv_mutex : forall i j a b,
    threads !! i = Some a -> threads !! j = Some b ->
    critical a = true -> critical b = true -> i = j;
  inv_cell : exists c,
    Interleaving.sheap s !! p = Some c /\
    mqttCounter (Interleaving.stat c) = wrap_uint64 (c0 + Z.of_nat (recorded threads)) /\
    (Interleaving.mu c = true <->
     exists i a, threads !! i = Some a /\ critical a = true) /\
    (forall i v, threads !! i = Some (Interleaving.AtWrite p v) ->
       v = mqttCounter (Interleaving.stat c)) }.

(** The shared memory that corresponds to a state of the sequential model:
    the same map and objects, every mutex free. *)
Definition cell_of (x : statMqtt) : Interleaving.cell :=
  {| Interleaving.stat := x; Interleaving.mu := false |}.

Definition shared_of (st : State) : Interleaving.shared :=
  {| Interleaving.smap := mapStatMqtt st;
     Interleaving.sheap := cell_of <$> heap st |}.

(** ** The rest of the package

    The functions the statements above do not reach: [SetDeviceParameter]
    and [RefreshDeviceList] of ecoflow.go, and [insertMqttData], [OnConnect],
    [SubscribeForParameters] and [SubscribeToTopics] of the MQTT source. *)

Record CmdSetResponse := { csCode : string; csMessage : string }.

(** The library calls of these functions: encoding/json at [CmdSetResponse]
    and on a decoded composite, math.Trunc, and the conversion
    [int64(float64)]. *)
Record MoreExternals := {
  json_Unmarshal_CmdSetResponse : string -> result (option CmdSetResponse);
  json_Marshal_composite : value -> result string;
  math_Trunc : float -> float;
  int64_of_float64 : float -> Z }.



(** The package variables [devices] and [ecoclient], and the calls of
    [Client.SubscribeMultiple] made so far, each with its map from topic to
    quality of service. *)
Record Session := {
  devices : option DeviceListResponse;
  ecoclient : hook;
  subscribed : list (gmap string Z) }.

(** RefreshDeviceList refresh device list using HTTP device list request *)
Definition RefreshDeviceList (X : Externals) (client : Client) (s : Session)
    : Session :=
  match GetDeviceList X client with
  | (_, Some err) => s
  | (list, None) =>
      {| devices := list; ecoclient := ecoclient s;
         subscribed := subscribed s |}
  end.

Definition SubscribeToTopics (topics : list string) (s : Session)
    : Session * outcome (option error) :=
  let topicsMap := foldl (fun m t => <[t := 1]> m) (∅ : gmap string Z) topics in
  match ecoclient s with
  | hook_nil => (s, Panics nilDereference)
  | hook_set =>
      ({| devices := devices s; ecoclient := ecoclient s;
          subscribed := subscribed s ++ [topicsMap] |}, Returns None)
  end.

Definition topicParams (deviceSn : string) : string :=
  "/app/device/property/" +:+ deviceSn.

Definition SubscribeForParameters (deviceSn : string) (s : Session)
    : Session * outcome (option error) :=
  SubscribeToTopics [topicParams deviceSn] s.

(** The loop of [OnConnect] over [devices.Devices]. *)
Fixpoint subscribeDevices (ds : list DeviceInfo) (s : Session)
    : Session * outcome unit :=
  match ds with
  | [] => (s, Returns tt)
  | d :: ds' =>
      match SubscribeForParameters (SN d) s with
      | (s', Returns _) => subscribeDevices ds' s'
      | (s', Panics reason) => (s', Panics reason)
      end
  end.

(** OnConnect on connect open handler called if connetion is done *)
Definition OnConnect (s : Session) : Session * outcome unit :=
  match devices s with
  | None => (s, Panics nilDereference)
  | Some d => subscribeDevices (Devices d) s
  end.

(** A database column value, [any]. *)
Inductive column :=
| ColString (s : string)
| ColInt64 (n : Z)
| ColFloat64 (f : float)
| ColTime (t : Z)
| ColNil.

(** [strings.ReplaceAll(s, old, new)] for one-byte [old] and [new]. *)
Fixpoint strings_ReplaceAll (s : string) (old new : ascii) : string :=
  match s with
  | "" => ""
  | String c s' =>
      String (if decide (c = old) then new else c) (strings_ReplaceAll s' old new)
  end.

Definition fieldName (k : string) : string :=
  "eco_" +:+ strings_ReplaceAll k "."%char "_"%char.

(** What the type switch of [insertMqttData] appends to [columns]. *)
Definition columnsOf (Y : MoreExternals) (v : value) : list column :=
  match v with
  | VString val => [ColString val]
  | VFloat val =>
      if PrimFloat.eqb val (math_Trunc Y val)
      then [ColInt64 (int64_of_float64 Y val)]
      else [ColFloat64 val]
  | VTime val => [ColTime val]
  | VSlice _ | VMap _ =>
      match json_Marshal_composite Y v with
      | Err _ => [ColNil]
      | Ok b => [ColString b]
      end
  | VNil | VInt _ | VBool _ => []
  end.

Fixpoint insertMqttData_loop (Y : MoreExternals) (data : gomap)
    (keys fields : list string) (columns : list column)
    : list string * list column :=
  match keys with
  | [] => (fields, columns)
  | k :: keys' =>
      let v := default VNil (mapaccess data k) in
      let name := fieldName k in
      insertMqttData_loop Y data keys' (fields ++ [name])
        (columns ++ columnsOf Y v)
  end.

(** insertMqttData prepare MQTT data into column data for database storage *)
Definition insertMqttData (Y : MoreExternals) (data : gomap)
    : list string * list (list column) :=
  let keys := sort_Strings (data.*1) in
  let '(fields, columns) := insertMqttData_loop Y data keys [] [] in
  (fields, [columns]).

(** ** Definitions used by the further statements *)

Definition is_digit (c : ascii) : bool :=
  bool_decide (c ∈ String.list_ascii_of_string "0123456789").

Definition has_slash (s : string) : bool :=
  bool_decide ("/"%char ∈ String.list_ascii_of_string s).

(** A value [insertMqttData] has a column for. *)
Definition storable (v : value) : bool :=
  match v with
  | VString _ | VFloat _ | VTime _ | VSlice _ | VMap _ => true
  | VNil | VInt _ | VBool _ => false
  end.

(** The broker counter of a device as [StatMqtt] reads it, 0 for a device
    without entry. *)
Definition mqttCount (st : State) (sn : string) : Z :=
  match mapStatMqtt st !! sn with
  | Some p =>
      match heap st !! p with
      | Some s => mqttCounter s
      | None => 0
      end
  | None => 0
  end.

(** The pointers of [mapStatMqtt] are valid and distinct, and the counters
    are [uint64] values. *)
Record stats_wf (st : State) : Prop := {
  wf_valid : forall sn p, mapStatMqtt st !! sn = Some p -> (p < length (heap st))%nat;
  wf_distinct : forall sn1 sn2 p,
    mapStatMqtt st !! sn1 = Some p -> mapStatMqtt st !! sn2 = Some p -> sn1 = sn2;
  wf_range : Forall (fun s => 0 <= mqttCounter s < 2 ^ 64) (heap st) }.

Definition same_stats (st st' : State) : Prop :=
  heap st' = heap st /\ mapStatMqtt st' = mapStatMqtt st /\
  mqttStatMap st' = mqttStatMap st.

(** One invocation of the handler after the other, until one panics. *)
Definition handleMessages (X : Externals) (msgs : list Message) : M unit :=
  forEach msgs (MessageHandler X).

Definition messagesOf (sn : string) (msgs : list Message) : list Message :=
  filter (fun m => getSnFromTopic (Topic m) = sn) msgs.

(** [sent_by X r req]: [req] is the request [Execute] hands to the transport
    for [r]: the method of [r], the four signature headers, the signature
    being the HMAC of the signing base made of the very query string, nonce
    and timestamp that are sent; the query string in the URL for GET, the
    JSON body and the bare URL for POST and PUT. *)
Definition sent_by (X : Externals) (r : HttpRequest) (req : Request) : Prop :=
  let sp := generateSignParameters X r in
  reqMethod req = method r /\
  method r ∈ ["GET"; "POST"; "PUT"] /\
  [(accessKeyHeader, hrAccessKey r); (nonceHeader, nonce sp);
   (timestampHeader, timestamp sp); (signHeader, sign sp)] ⊆ reqHeader req /\
  sign sp = encryptHmacSHA256 X
              (signingBase (queryParams sp) (hrAccessKey r) (nonce sp)
                 (timestamp sp)) (hrSecretKey r) /\
  (method r = "GET" ->
   reqURL req = uri r +:+ "?" +:+ queryParams sp /\ reqBody req = None) /\
  (method r <> "GET" ->
   reqURL req = uri r /\
   reqBody req = Some (match requestParameters r with
                       | Some params => json_Marshal X (VMap params)
                       | None => ""
                       end)).


(** ** Environments of the further examples *)

Definition noCommands : MoreExternals :=
  {| json_Unmarshal_CmdSetResponse := fun _ => Err "invalid character";
     json_Marshal_composite := fun _ => Ok "{}";
     math_Trunc := fun f => f;
     int64_of_float64 := fun _ => 0 |}.





Definition knownMemory : Interleaving.shared :=
  {| Interleaving.smap := {["DEV1" := 0%nat]};
     Interleaving.sheap :=
       [{| Interleaving.stat := {| mqttCounter := 5; httpCounter := 0 |};
           Interleaving.mu := false |}] |}.

Definition knownSchedule : list nat := [0; 0; 1; 0; 0; 0; 1; 1; 1; 1]%nat.

(** ** Strings *)

Lemma string_app_assoc (a b c : string) : (a +:+ b) +:+ c = a +:+ (b +:+ c).
Proof. unfold String.app. induction a; simpl; by f_equal. Qed.

Lemma string_app_nil_r (a : string) : a +:+ "" = a.
Proof. unfold String.app. induction a; simpl; by f_equal. Qed.

(** ** The canonical query string *)

Section SigningFacts.
Context (X : Externals).

Lemma processValue_VMap prefix m :
  processValue X prefix (VMap m) =
  flat_map (fun kv => processValue X (prefix +:+ "." +:+ kv.1) kv.2) m.
Proof.
  induction m as [|[k v] m IH]; [done|].
  simpl in *. by rewrite IH.
Qed.

Lemma processItems_unfold prefix i l :
  (fix range (i : Z) (l : list value) : list string :=
     match l with
     | [] => []
     | item :: l' =>
         (processValue X (prefix +:+ "[" +:+ Itoa i +:+ "]") item
            ++ range (i + 1) l')%list
     end) i l = processItems X prefix i l.
Proof. revert i. induction l as [|v l IH]; intros i; simpl; [done|]. by rewrite IH. Qed.

Lemma processValue_VSlice prefix l :
  processValue X prefix (VSlice l) = processItems X prefix 0 l.
Proof. simpl. apply processItems_unfold. Qed.

(** Iteration order does not change the pairs [processValue] collects, only
    their order. *)
Lemma same_flatten :
  (forall v v', same_value v v' ->
     forall prefix, processValue X prefix v ≡ₚ processValue X prefix v') /\
  (forall m m', same_entries m m' ->
     forall g : string -> string,
       flat_map (fun kv => processValue X (g kv.1) kv.2) m ≡ₚ
       flat_map (fun kv => processValue X (g kv.1) kv.2) m') /\
  (forall l l', same_items l l' ->
     forall prefix i, processItems X prefix i l ≡ₚ processItems X prefix i l').
Proof.
  apply same_mutind.
  - done.
  - intros m m' _ IH prefix. rewrite !processValue_VMap.
    apply (IH (fun k => prefix +:+ "." +:+ k)).
  - intros l l' _ IH prefix. rewrite !processValue_VSlice. apply IH.
  - done.
  - intros k v v' m m' _ IHv _ IHm g. cbn [flat_map fst snd].
    by rewrite (IHv (g k)), (IHm g).
  - intros e1 e2 m g. cbn [flat_map]. rewrite !(assoc_L (++)).
    f_equiv. apply Permutation_app_comm.
  - intros m1 m2 m3 _ IH1 _ IH2 g. by rewrite (IH1 g), (IH2 g).
  - done.
  - intros v v' l l' _ IHv _ IHl prefix i. cbn [processItems].
    by rewrite (IHv _), (IHl prefix (i + 1)).
Qed.

(** [same_entries] covers every reordering of the entries, and relates only
    listings with the same keys. *)
Lemma Permutation_same_entries (m m' : gomap) : m ≡ₚ m' -> same_entries m m'.
Proof.
  induction 1 as [|[k v] m m' _ IH| |m1 m2 m3 _ IH1 _ IH2].
  - constructor.
  - apply same_entries_skip; [apply same_refl | done].
  - apply same_entries_swap.
  - by eapply same_entries_trans.
Qed.

Lemma same_entries_keys (m m' : gomap) :
  same_entries m m' -> m.*1 ≡ₚ m'.*1.
Proof.
  revert m m'.
  apply (same_entries_mut (fun _ _ => True) (fun m m' => m.*1 ≡ₚ m'.*1)
           (fun _ _ => True)); try done.
  - intros k v v' m m' _ _ _ IH. cbn. by rewrite IH.
  - intros e1 e2 m. cbn. apply perm_swap.
  - intros m1 m2 m3 _ IH1 _ IH2. by rewrite IH1.
Qed.

Lemma sort_Strings_Permutation l1 l2 :
  l1 ≡ₚ l2 -> sort_Strings l1 = sort_Strings l2.
Proof.
  intros Hp. unfold sort_Strings.
  apply (Sorted_unique String.le); [apply Sorted_merge_sort, _..|].
  by rewrite !merge_sort_Permutation.
Qed.

(** C1. The canonical query string is deterministic: two runs of
    [generateQueryParams] on the same parameter mapping, whatever the order
    in which each run iterates over the maps inside, give the same string;
    that string is the flattened [key=value] pairs in non-decreasing byte
    order, joined with [&]. *)
Theorem generateQueryParams_deterministic (d1 d2 : gomap) :
  same_entries d1 d2 ->
  generateQueryParams X d1 = generateQueryParams X d2 /\
  exists pairs,
    pairs ≡ₚ flattenParams X d1 /\
    Sorted String.le pairs /\
    generateQueryParams X d1 = strings_Join pairs "&".
Proof.
  intros Hsame. split.
  - unfold generateQueryParams, flattenParams. f_equal.
    apply sort_Strings_Permutation.
    apply (proj1 (proj2 same_flatten) _ _ Hsame (fun k => k)).
  - exists (sort_Strings (flattenParams X d1)). split_and!.
    + apply merge_sort_Permutation.
    + apply Sorted_merge_sort, _.
    + done.
Qed.

End SigningFacts.

(** Two listings of one parameter mapping, the maps at both depths iterated
    in different orders. *)
Lemma generateQueryParams_deterministic_witness :
  let d1 := [("sn", VString "DEV1");
             ("params", VMap [("b", VInt 2);
                              ("a", VSlice [VBool true; VInt 7])])] in
  let d2 := [("params", VMap [("a", VSlice [VBool true; VInt 7]);
                              ("b", VInt 2)]);
             ("sn", VString "DEV1")] in
  same_entries d1 d2 /\
  generateQueryParams offline d1 = generateQueryParams offline d2.
Proof.
  intros d1 d2.
  assert (Hsame : same_entries d1 d2).
  { eapply same_entries_trans; [apply same_entries_swap|].
    apply same_entries_skip.
    - apply same_VMap, same_entries_swap.
    - apply same_entries_skip; [apply same_refl | apply same_entries_nil]. }
  split; [exact Hsame|].
  exact (proj1 (generateQueryParams_deterministic offline d1 d2 Hsame)).
Defined.

(** The example of the protocol description. *)
Example generateQueryParams_permanentWatts :
  generateQueryParams offline [("permanentWatts", VInt 2000)]
  = "permanentWatts=2000".
Proof. reflexivity. Qed.

Example generateQueryParams_nested :
  generateQueryParams offline
    [("sn", VString "DEV1");
     ("params", VMap [("b", VInt 2); ("a", VSlice [VBool true; VInt 7])])]
  = "params.a[0]=true&params.a[1]=7&params.b=2&sn=DEV1".
Proof. vm_compute. reflexivity. Qed.

(** ** The signature *)

Lemma hexdigit_lower (n : N) : (n < 16)%N -> is_lower_hex (hexdigit n) = true.
Proof.
  intros Hn.
  assert (Hcases : n ∈ [0;1;2;3;4;5;6;7;8;9;10;11;12;13;14;15]%N).
  { rewrite !elem_of_cons. lia. }
  rewrite !elem_of_cons in Hcases.
  destruct_or!; subst; try reflexivity. by apply elem_of_nil in Hcases.
Qed.

Lemma hex_EncodeToString_lower (src : string) :
  forallb is_lower_hex (String.list_ascii_of_string (hex_EncodeToString src))
  = true.
Proof.
  induction src as [|v src IH]; [done|].
  cbn [hex_EncodeToString String.list_ascii_of_string forallb].
  rewrite IH, !hexdigit_lower; [done| |].
  - change 15%N with (N.ones 4). rewrite N.land_ones. by apply N.mod_lt.
  - rewrite N.shiftr_div_pow2. pose proof (N_ascii_bounded v).
    apply N.Div0.div_lt_upper_bound. simpl. lia.
Qed.

Lemma hex_EncodeToString_length (src : string) :
  String.length (hex_EncodeToString src) = (2 * String.length src)%nat.
Proof. induction src as [|v src IH]; simpl; [done|]. rewrite IH. lia. Qed.

Section SignatureFacts.
Context (X : Externals).

Lemma getKeyValueString_signingBase (r : HttpRequest) queryString nonce timestamp :
  getKeyValueString r queryString nonce timestamp
  = signingBase queryString (hrAccessKey r) nonce timestamp.
Proof.
  unfold getKeyValueString, signingBase.
  destruct queryString; [done|]. by case_decide.
Qed.

(** C2. For every signed request the package generates, the string that is
    signed is [queryString&accessKey=..&nonce=..&timestamp=..], or the
    triple alone when the canonical query string is empty, and the emitted
    signature is the lowercase hexadecimal HMAC-SHA256 of that string under
    the secret key: recomputing it from the emitted query string, nonce and
    timestamp gives the emitted signature. *)
Theorem generateSignParameters_verifiable (r : HttpRequest) :
  let sp := generateSignParameters X r in
  let base :=
    signingBase (queryParams sp) (accessKey sp) (nonce sp) (timestamp sp) in
  queryParams sp = generateQueryParams X (default [] (requestParameters r)) /\
  accessKey sp = hrAccessKey r /\
  getKeyValueString r (queryParams sp) (nonce sp) (timestamp sp) = base /\
  sign sp = hex_EncodeToString (hmac_sha256 X (hrSecretKey r) base) /\
  forallb is_lower_hex (String.list_ascii_of_string (sign sp)) = true /\
  String.length (sign sp)
  = (2 * String.length (hmac_sha256 X (hrSecretKey r) base))%nat.
Proof.
  intros sp base. subst sp base. cbn [queryParams accessKey nonce timestamp sign
    generateSignParameters].
  unfold generateSign, encryptHmacSHA256.
  rewrite getKeyValueString_signingBase.
  split_and!; try done.
  - apply hex_EncodeToString_lower.
  - apply hex_EncodeToString_length.
Qed.

End SignatureFacts.

(** The signing base of the example of the protocol description. *)
Example getKeyValueString_permanentWatts :
  getKeyValueString
    (NewHttpRequest "PUT" "https://api.ecoflow.com/iot-open/sign/device/quota"
       (Some [("permanentWatts", VInt 2000)]) "AK" "SK")
    "permanentWatts=2000" "123456" "1700000000000000000"
  = "permanentWatts=2000&accessKey=AK&nonce=123456&timestamp=1700000000000000000".
Proof. reflexivity. Qed.

Example hex_EncodeToString_bytes :
  hex_EncodeToString (String "000" (String "171" (String "255" "")))
  = "00abff".
Proof. reflexivity. Qed.

(** ** The device operations *)

Section RestFacts.
Context (X : Externals).

Lemma contains_intro (before sub after : string) :
  contains (before +:+ sub +:+ after) sub.
Proof. by exists before, after. Qed.

(** C7. On a response envelope with code 0, [GetDeviceList] returns the
    decoded envelope, with the devices of its data member, and no error; on an
    envelope with any other code it returns an error whose text contains the
    message of the vendor verbatim. *)
Theorem GetDeviceList_envelope (c : Client) (response : string)
    (deviceResponse : DeviceListResponse) :
  Execute X (deviceListRequest c) = Ok response ->
  json_Unmarshal_DeviceListResponse X response = Ok deviceResponse ->
  (dlCode deviceResponse = "0" ->
     GetDeviceList X c = (Some deviceResponse, None)) /\
  (dlCode deviceResponse <> "0" ->
     exists err,
       GetDeviceList X c = (Some deviceResponse, Some err) /\
       contains err (dlMessage deviceResponse)).
Proof.
  intros Hexec Hjson. unfold GetDeviceList.
  change (NewHttpRequest _ _ _ _ _) with (deviceListRequest c).
  rewrite Hexec, Hjson. split; intros Hcode.
  - by rewrite decide_False by (by intros []).
  - rewrite decide_True by done. eexists. split; [done|].
    exists ("can't get device list, error code: " +:+ dlCode deviceResponse +:+
            ", error message: "), "".
    by rewrite string_app_nil_r, !string_app_assoc.
Qed.

(** C8. Given a success envelope, [GetDeviceInfo] with a non-empty selector
    returns the mapping stored under that top-level key of the decoded
    envelope and fails when the key is absent or holds something else than a
    mapping; with the empty selector it returns the whole decoded envelope. *)
Theorem GetDeviceInfo_selector (c : Client) (deviceSn specific response : string)
    (jsonData : gomap) :
  Execute X (deviceInfoRequest c deviceSn) = Ok response ->
  json_Unmarshal_map X response = Ok jsonData ->
  mapaccess jsonData "code" = Some (VString "0") ->
  (specific = "" -> GetDeviceInfo X c deviceSn specific = Ok jsonData) /\
  (specific <> "" ->
     forall m, mapaccess jsonData specific = Some (VMap m) ->
       GetDeviceInfo X c deviceSn specific = Ok m) /\
  (specific <> "" ->
     (forall m, mapaccess jsonData specific <> Some (VMap m)) ->
     GetDeviceInfo X c deviceSn specific
     = Err "response is not valid, can't process it").
Proof.
  intros Hexec Hjson Hcode. unfold GetDeviceInfo.
  change (NewHttpRequest _ _ _ _ _) with (deviceInfoRequest c deviceSn).
  rewrite Hexec, Hjson, Hcode. cbn [assert_string].
  rewrite decide_False by (intros [|]; done).
  split_and!.
  - intros ->. done.
  - intros Hs m Hm. rewrite decide_True by done. by rewrite Hm.
  - intros Hs Hm. rewrite decide_True by done.
    destruct (mapaccess jsonData specific) as [[]|]; try done.
    by edestruct Hm.
Qed.

(** C10. [GetDeviceAllParameters] ignores its selector: it is
    [GetDeviceInfo] at the selector [data], so what it returns without error
    is the mapping under the top-level key [data] of the decoded envelope. *)
Theorem GetDeviceAllParameters_ignores_selector (c : Client)
    (deviceSn specific : string) :
  GetDeviceAllParameters X c deviceSn specific
  = GetDeviceInfo X c deviceSn "data" /\
  forall m, GetDeviceAllParameters X c deviceSn specific = Ok m ->
    exists response jsonData,
      Execute X (deviceInfoRequest c deviceSn) = Ok response /\
      json_Unmarshal_map X response = Ok jsonData /\
      mapaccess jsonData "code" = Some (VString "0") /\
      mapaccess jsonData "data" = Some (VMap m).
Proof.
  split; [done|]. intros m. unfold GetDeviceAllParameters, GetDeviceInfo.
  change (NewHttpRequest _ _ _ _ _) with (deviceInfoRequest c deviceSn).
  destruct (Execute X _) as [response|] eqn:Hexec; [|done].
  destruct (json_Unmarshal_map X response) as [jsonData|] eqn:Hjson; [|done].
  destruct (mapaccess jsonData "code") as [[| | |code| | | |]|] eqn:Hcode;
    cbn [assert_string]; try (rewrite decide_True by (by left); done).
  case_decide as Hc; [done|].
  rewrite decide_True by done.
  destruct (mapaccess jsonData "data") as [[]|] eqn:Hdata; try done.
  intros [= <-]. exists response, jsonData. split_and!; try done.
  destruct (decide (code = "0")) as [->|Hne]; [done|].
  destruct Hc. by right.
Qed.

End RestFacts.

(** The device list of the envelope example: one device ABC, online. *)
Lemma GetDeviceList_envelope_witness :
  Execute restAnswers (deviceListRequest someClient) = Ok deviceListBody /\
  json_Unmarshal_DeviceListResponse restAnswers deviceListBody
  = Ok deviceListEnvelope /\
  GetDeviceList restAnswers someClient = (Some deviceListEnvelope, None).
Proof.
  assert (Hexec : Execute restAnswers (deviceListRequest someClient)
                  = Ok deviceListBody) by (vm_compute; reflexivity).
  assert (Hjson : json_Unmarshal_DeviceListResponse restAnswers deviceListBody
                  = Ok deviceListEnvelope) by (vm_compute; reflexivity).
  split_and!; [exact Hexec | exact Hjson |].
  exact (proj1 (GetDeviceList_envelope restAnswers someClient _ _ Hexec Hjson)
           eq_refl).
Defined.

(** The quota document of device ABC, read at the selector [data]. *)
Lemma GetDeviceInfo_selector_witness :
  Execute restAnswers (deviceInfoRequest someClient "ABC") = Ok quotaBody /\
  json_Unmarshal_map restAnswers quotaBody = Ok quotaEnvelope /\
  mapaccess quotaEnvelope "code" = Some (VString "0") /\
  GetDeviceInfo restAnswers someClient "ABC" "data"
  = Ok [("pd.standbyMin", VString "30")].
Proof.
  assert (Hexec : Execute restAnswers (deviceInfoRequest someClient "ABC")
                  = Ok quotaBody) by (vm_compute; reflexivity).
  assert (Hjson : json_Unmarshal_map restAnswers quotaBody = Ok quotaEnvelope)
    by (vm_compute; reflexivity).
  assert (Hcode : mapaccess quotaEnvelope "code" = Some (VString "0"))
    by (vm_compute; reflexivity).
  split_and!; [exact Hexec | exact Hjson | exact Hcode |].
  refine (proj1 (proj2 (GetDeviceInfo_selector restAnswers someClient "ABC"
            "data" _ _ Hexec Hjson Hcode)) _ _ _).
  - discriminate.
  - vm_compute; reflexivity.
Defined.

Example GetDeviceInfo_whole_envelope :
  GetDeviceInfo restAnswers someClient "ABC" "" = Ok quotaEnvelope.
Proof. vm_compute. reflexivity. Qed.

Example GetDeviceInfo_absent_key :
  GetDeviceInfo restAnswers someClient "ABC" "quota"
  = Err "response is not valid, can't process it".
Proof. vm_compute. reflexivity. Qed.

Example GetDeviceAllParameters_other_selector :
  GetDeviceAllParameters restAnswers someClient "ABC" "code"
  = Ok [("pd.standbyMin", VString "30")].
Proof. vm_compute. reflexivity. Qed.

(** ** The broker credential exchange *)

Section BrokerFacts.
Context (X : Externals).

Lemma getLoginResponse_request (email password : string) :
  getLoginResponse X email password =
  match http_Do X (loginRequest X email password) with
  | Err err => Err err
  | Ok resp =>
      match Body resp with
      | Err err => Err err
      | Ok responseBody => json_Unmarshal_MqttLoginResponse X responseBody
      end
  end.
Proof.
  unfold getLoginResponse.
  assert (Hparams :
    mapassign (mapassign (mapassign (mapassign [] "email" (VString email))
      "password" (VString (base64_StdEncoding X password)))
      "scene" (VString ecoflowScene)) "userType" (VString ecoflowUserType)
    = loginParams X email password) by reflexivity.
  rewrite Hparams. fold (loginRequest X email password).
  destruct (http_Do X _) as [resp|]; [|done].
  destruct (Body resp) as [body|]; [|done].
  by destruct (json_Unmarshal_MqttLoginResponse X body).
Qed.

(** C3, as the code has it. The login step does not look at the code of the
    envelope: once the login endpoint has answered with a body,
    [getLoginResponse] returns what decoding that body gives, so it fails
    only on a malformed body; and for every decoded login envelope, whatever
    its code, [getMqttCredentials] goes on to the certification request with
    the user id and token of that envelope and returns the credentials found
    in the answer, stamped with that user id. *)
Theorem getLoginResponse_code_not_inspected (email password : string)
    (resp : Response) (body : string) :
  http_Do X (loginRequest X email password) = Ok resp ->
  Body resp = Ok body ->
  getLoginResponse X email password = json_Unmarshal_MqttLoginResponse X body /\
  forall login resp' body' mqttConn,
    json_Unmarshal_MqttLoginResponse X body = Ok (Some login) ->
    http_Do X (certificationRequest X login) = Ok resp' ->
    Body resp' = Ok body' ->
    json_Unmarshal_MqttCredentialsResponse X body' = Ok (Some mqttConn) ->
    getMqttCredentials X email password
    = Returns (Ok (setUserId (mcData mqttConn) (mlUserId login))).
Proof.
  intros Hdo Hbody.
  assert (Hlogin : getLoginResponse X email password
                   = json_Unmarshal_MqttLoginResponse X body).
  { by rewrite getLoginResponse_request, Hdo, Hbody. }
  split; [done|].
  intros login resp' body' mqttConn Hjson Hdo' Hbody' Hjson'.
  unfold getMqttCredentials. rewrite Hlogin, Hjson.
  change (http_Do X {| reqMethod := "GET"; reqURL := _; reqBody := _;
                       reqHeader := _ |})
    with (http_Do X (certificationRequest X login)).
  by rewrite Hdo', Hbody', Hjson'.
Qed.

End BrokerFacts.

(** C3, the claim as stated fails: the vendor rejects the login with code
    2026, and the login step returns the envelope with no error; the exchange
    goes on and hands empty credentials to its caller as a success. *)
Lemma rejected_login_returns_no_error :
  mlCode rejectedLoginEnvelope <> "0" /\
  getLoginResponse rejectedLogin "user@example.com" "secret"
  = Ok (Some rejectedLoginEnvelope) /\
  getMqttCredentials rejectedLogin "user@example.com" "secret"
  = Returns (Ok emptyConfig).
Proof. split_and!; [discriminate | vm_compute; reflexivity..]. Qed.

Lemma getLoginResponse_code_not_inspected_witness :
  http_Do rejectedLogin (loginRequest rejectedLogin "user@example.com" "secret")
  = ok200 rejectedLoginBody /\
  getLoginResponse rejectedLogin "user@example.com" "secret"
  = json_Unmarshal_MqttLoginResponse rejectedLogin rejectedLoginBody.
Proof.
  assert (Hdo : http_Do rejectedLogin
                  (loginRequest rejectedLogin "user@example.com" "secret")
                = ok200 rejectedLoginBody) by (vm_compute; reflexivity).
  split; [exact Hdo|].
  exact (proj1 (getLoginResponse_code_not_inspected rejectedLogin
                  "user@example.com" "secret" _ rejectedLoginBody Hdo eq_refl)).
Defined.

(** ** The message handler *)

Lemma add_events_nil (st : State) : add_events st [] = st.
Proof. destruct st. unfold add_events. simpl. by rewrite app_nil_r. Qed.

Lemma add_events_app (st : State) (evs1 evs2 : list Event) :
  add_events (add_events st evs1) evs2 = add_events st (evs1 ++ evs2).
Proof. unfold add_events. simpl. by rewrite (assoc_L (++)). Qed.






(** The statistics statements return, and leave the collaborators and the
    record of their calls as they were. *)
Lemma recordBrokerMessage_returns (msg : Message) (st : State) :
  (recordBrokerMessage msg st).2 = Returns tt /\
  caller (recordBrokerMessage msg st).1 = caller st /\
  Callback (recordBrokerMessage msg st).1 = Callback st /\
  trace (recordBrokerMessage msg st).1 = trace st.
Proof.
  unfold recordBrokerMessage, bind, GetStatEntry.
  by destruct (mapStatMqtt st !! _).
Qed.

Section HandlerFacts.
Context (X : Externals).

Lemma MessageHandler_unfold (msg : Message) (st : State) :
  MessageHandler X msg st =
  match json_Unmarshal_map X (Payload msg) with
  | Ok data =>
      handleJSON X (getSnFromTopic (Topic msg)) data
        (recordBrokerMessage msg st).1
  | Err _ =>
      handleBinary X (getSnFromTopic (Topic msg)) (Payload msg)
        (recordBrokerMessage msg st).1
  end.
Proof.
  unfold MessageHandler, recordBrokerMessage, bind, GetStatEntry.
  destruct (mapStatMqtt st !! _); by destruct (json_Unmarshal_map X _).
Qed.

(** The debug output either panics on one of its assertions or changes
    nothing. *)
Lemma debugEnvelope_cases (data : gomap) (st : State) :
  debugEnvelope X data st = (st, Returns tt) \/
  exists reason,
    log_IsDebugLevel X = true /\ debugEnvelope X data st = (st, Panics reason).
Proof.
  unfold debugEnvelope. destruct (log_IsDebugLevel X); [|by left].
  unfold bind, must_float64, must_string, ret, panic.
  destruct (mapaccess data "cmdId") as [[]|];
    try (right; eexists; split; reflexivity).
  destruct (mapaccess data "cmdFunc") as [[]|];
    try (right; eexists; split; reflexivity).
  destruct (mapaccess data "version") as [[]|];
    try (right; eexists; split; reflexivity).
  destruct (mapaccess data "id") as [[]|];
    try (right; eexists; split; reflexivity).
  by left.
Qed.


(** C9. The handler is not total on valid JSON: when the payload decodes to
    an object whose [params] member is not itself an object, the handler
    panics and no record is delivered; with debug logging off the panic is
    the one of the unguarded assertion on [params]. *)
Theorem MessageHandler_params_not_object (msg : Message) (st : State)
    (data : gomap) (v : value) :
  json_Unmarshal_map X (Payload msg) = Ok data ->
  mapaccess data "params" = Some v ->
  (forall m, v <> VMap m) ->
  exists st' reason,
    MessageHandler X msg st = (st', Panics reason) /\
    trace st' = trace st /\
    (log_IsDebugLevel X = false -> reason = wrongMap).
Proof.
  intros Hjson Hp Hv.
  rewrite MessageHandler_unfold, Hjson.
  destruct (recordBrokerMessage_returns msg st) as (_ & _ & _ & Htr).
  rewrite <- Htr. generalize (recordBrokerMessage msg st).1. intros st1.
  unfold handleJSON, bind.
  destruct (debugEnvelope_cases data st1) as [->|(reason & Hdebug & ->)].
  - rewrite Hp. exists st1, wrongMap. split_and!; [|done..].
    destruct v; try done. by destruct (Hv m).
  - exists st1, reason. split_and!; [done..|]. by rewrite Hdebug.
Qed.

End HandlerFacts.

Lemma MessageHandler_params_not_object_witness :
  json_Unmarshal_map telemetry (Payload params5Message)
  = Ok [("params", VFloat 5)] /\
  exists st' reason,
    MessageHandler telemetry params5Message started = (st', Panics reason) /\
    trace st' = trace started /\
    (log_IsDebugLevel telemetry = false -> reason = wrongMap).
Proof.
  split; [vm_compute; reflexivity|].
  apply (MessageHandler_params_not_object telemetry params5Message started
           [("params", VFloat 5)] (VFloat 5)).
  - vm_compute; reflexivity.
  - reflexivity.
  - discriminate.
Defined.

(** C4, where the code departs from it: the payload whose only member is
    params with the number 5 decodes as a JSON object, and the handler
    panics on it; [Callback] is not called. *)
Theorem MessageHandler_params5_panics :
  getSnFromTopic (Topic params5Message) = "DEV1" /\
  json_Unmarshal_map telemetry (Payload params5Message)
  = Ok [("params", VFloat 5)] /\
  (MessageHandler telemetry params5Message started).2 = Panics wrongMap /\
  trace (MessageHandler telemetry params5Message started).1 = [].
Proof. vm_compute. done. Qed.

(** The JSON telemetry example, debug logging off: one record for DEV1 with
    x = 1, the serial number and the receipt time. *)
Example MessageHandler_example :
  (MessageHandler (exampleTelemetry false) exampleMessage started).2
  = Returns tt /\
  trace (MessageHandler (exampleTelemetry false) exampleMessage started).1
  = [CallbackEvent "DEV1"
       [("x", VFloat 1); ("serial_number", VString "DEV1");
        ("timestamp", VTime 1700000000000000000)]].
Proof. vm_compute. done. Qed.

(** The same message with debug logging on: the envelope has no version
    member, and the debug output panics on it. *)
Example MessageHandler_example_debug :
  (MessageHandler (exampleTelemetry true) exampleMessage started).2
  = Panics wrongString /\
  trace (MessageHandler (exampleTelemetry true) exampleMessage started).1 = [].
Proof. vm_compute. done. Qed.

(** ** The binary branch *)

Lemma prefix_length (sep s : string) :
  String.prefix sep s = true -> (String.length sep <= String.length s)%nat.
Proof.
  revert s. induction sep as [|a sep IH]; intros [|b s]; simpl; try done; try lia.
  destruct (ascii_dec a b); [|done]. intros H%IH. lia.
Qed.

Lemma bytes_Index_from_bounds (i : Z) (s sep : string) :
  bytes_Index_from i s sep <> -1 ->
  i <= bytes_Index_from i s sep /\
  bytes_Index_from i s sep + len sep <= i + len s.
Proof.
  revert i. unfold len.
  induction s as [|c s IH]; intros i; cbn [bytes_Index_from].
  - destruct (String.prefix sep "") eqn:Hp; [|done].
    apply prefix_length in Hp. simpl in *. lia.
  - destruct (String.prefix sep (String c s)) eqn:Hp.
    + apply prefix_length in Hp. lia.
    + intros H. specialize (IH (i + 1) H). simpl String.length. lia.
Qed.

Lemma bytes_Index_bounds (s sep : string) :
  bytes_Index s sep <> -1 ->
  0 <= bytes_Index s sep /\ bytes_Index s sep + len sep <= len s.
Proof. intros H. apply bytes_Index_from_bounds in H. unfold bytes_Index. lia. Qed.

Lemma substring_length (n m : nat) (s : string) :
  (n + m <= String.length s)%nat -> String.length (String.substring n m s) = m.
Proof.
  revert n m. induction s as [|c s IH]; intros [|n] [|m]; simpl; try lia.
  - intros H. rewrite (IH 0%nat m); lia.
  - intros H. apply (IH n 0%nat). lia.
  - intros H. apply (IH n (S m)). lia.
Qed.

Lemma slice_in_bounds (s : string) (lo hi : Z) :
  0 <= lo -> lo <= hi -> hi <= len s ->
  slice s lo hi = Some (String.substring (Z.to_nat lo) (Z.to_nat (hi - lo)) s).
Proof. intros. unfold slice. by rewrite decide_True. Qed.

Lemma len_nonneg (s : string) : 0 <= len s.
Proof. unfold len. lia. Qed.

Lemma firstEnd_bounds (sn payload : string) :
  0 <= firstEnd sn payload <= len payload.
Proof.
  unfold firstEnd. pose proof (len_nonneg payload). pose proof (len_nonneg sn).
  case_decide as Hi; [|lia]. apply bytes_Index_bounds in Hi. lia.
Qed.

Lemma secondEnd_bounds (sn payload : string) :
  firstEnd sn payload <= secondEnd sn payload <= len payload.
Proof.
  pose proof (firstEnd_bounds sn payload) as Hf.
  unfold secondEnd. cbv zeta. case_decide as Hi; [|lia].
  apply bytes_Index_bounds in Hi. pose proof (len_nonneg sn).
  assert (Hlen : len (String.substring (Z.to_nat (firstEnd sn payload))
                        (Z.to_nat (len payload - firstEnd sn payload)) payload)
                 = len payload - firstEnd sn payload).
  { unfold len at 1. rewrite substring_length; unfold len in *; lia. }
  lia.
Qed.

Section BinaryFacts.
Context (X : Externals).

Lemma forEach_CallHandler {A} (f : A -> Entry) (l : list A) (st : State) :
  caller st = hook_set ->
  forEach l (fun p => CallHandler (f p)) st
  = (add_events st (map (fun p => CallHandlerEvent (f p)) l), Returns tt).
Proof.
  revert st. induction l as [|p l IH]; intros st Hc; cbn [forEach map].
  - by rewrite add_events_nil.
  - unfold bind, CallHandler at 1. rewrite Hc.
    change (record_event ?ev st) with (add_events st [ev], Returns tt).
    cbv iota beta. rewrite IH by done. by rewrite add_events_app.
Qed.

(** One frame: with a handler installed, [DisplayPayload] returns and hands
    over exactly the records of the frame. *)
Lemma DisplayPayload_records (sn frame : string) (st : State) :
  caller st = hook_set ->
  exists b,
    DisplayPayload X sn frame st
    = (add_events st (map CallHandlerEvent (frameRecords X sn frame)), Returns b).
Proof.
  intros Hc. unfold DisplayPayload, frameRecords.
  destruct (proto_Unmarshal_SendHeaderMsg X frame) as [[[msg|]]|]; cbn [Msg GetCmdId].
  - case_decide.
    { destruct (proto_Unmarshal_InverterHeartbeat X _) as [ih|].
      - exists true. unfold bind, CallHandler. rewrite Hc. done.
      - exists true. by rewrite add_events_nil. }
    case_decide.
    { destruct (proto_Unmarshal_PowerPack X _) as [pp|].
      - exists true. unfold bind.
        rewrite (forEach_CallHandler
          (fun p => {| entryObject := PowerStreamObject p; serialNumber := sn |}))
          by done.
        by rewrite map_map.
      - exists true. by rewrite add_events_nil. }
    exists false. by rewrite add_events_nil.
  - rewrite !decide_False by done. exists false. by rewrite add_events_nil.
  - exists true. by rewrite add_events_nil.
Qed.


(** The binary branch, frame by frame. *)
Lemma handleBinary_frames (sn payload : string) (st : State) :
  caller st = hook_set ->
  handleBinary X sn payload st =
  (add_events st
     (map CallHandlerEvent
        (frameRecords X sn (firstFrame sn payload) ++
         if decide (len payload > bytes_Index payload sn + len sn)
         then frameRecords X sn (secondFrame sn payload) else [])),
   Returns tt).
Proof.
  intros Hc. unfold handleBinary. cbv zeta.
  change (if decide (bytes_Index payload sn <> -1)
          then bytes_Index payload sn + len sn else len payload)
    with (firstEnd sn payload).
  pose proof (firstEnd_bounds sn payload) as Hf.
  pose proof (secondEnd_bounds sn payload) as Hs.
  unfold bind at 1. unfold must_slice at 1.
  rewrite slice_in_bounds by lia. cbn [ret].
  rewrite Z.sub_0_r. change (Z.to_nat 0) with 0%nat.
  fold (firstFrame sn payload).
  unfold bind at 1.
  destruct (DisplayPayload_records sn (firstFrame sn payload) st Hc) as [b ->].
  case_decide as Hmore.
  - unfold bind at 1. unfold must_slice at 1.
    rewrite slice_in_bounds by lia. cbn [ret].
    change (if decide (bytes_Index (String.substring _ _ payload) sn <> -1)
            then _ else len payload) with (secondEnd sn payload).
    unfold bind at 1. unfold must_slice at 1.
    rewrite slice_in_bounds by lia. cbn [ret].
    fold (secondFrame sn payload).
    unfold bind at 1.
    destruct (DisplayPayload_records sn (secondFrame sn payload)
                (add_events st (map CallHandlerEvent
                   (frameRecords X sn (firstFrame sn payload)))))
      as [b' ->]; [done|].
    by rewrite add_events_app, map_app.
  - by rewrite app_nil_r.
Qed.


End BinaryFacts.


(** ** Concurrent recordings *)

(** The recordings for a device that already has its entry. *)
Module InterleavingFacts.
Import Interleaving.

Lemma recorded_insert (threads : list pc) (i : nat) (a a' : pc) :
  threads !! i = Some a ->
  (recorded (<[i := a']> threads) + incremented a
   = recorded threads + incremented a')%nat.
Proof.
  unfold recorded. revert i.
  induction threads as [|b threads IH]; intros [|i] Hi; simplify_eq/=; [lia|].
  specialize (IH i Hi). lia.
Qed.

Lemma lookup_insert_cases (threads : list pc) (i j : nat) (a a' b : pc) :
  threads !! i = Some a ->
  <[i := a']> threads !! j = Some b ->
  (j = i /\ b = a') \/ (j <> i /\ threads !! j = Some b).
Proof.
  intros Hi Hj. destruct (decide (i = j)) as [->|Hne].
  - left. apply lookup_lt_Some in Hi.
    rewrite list_lookup_insert_eq in Hj by done. by simplify_eq.
  - right. by rewrite list_lookup_insert_ne in Hj.
Qed.

Lemma wrap_uint64_succ (z : Z) :
  wrap_uint64 (wrap_uint64 z + 1) = wrap_uint64 (z + 1).
Proof. unfold wrap_uint64. by rewrite Zplus_mod_idemp_l. Qed.

Section Known.
Context (sn : string) (p : nat) (c0 : Z).

(** A step of one thread keeps the invariant. *)
Lemma step_inv (s s' : shared) (threads : list pc) (i : nat) (a a' : pc) :
  stats_inv sn p c0 s threads ->
  threads !! i = Some a ->
  step sn a s = Some (a', s') ->
  stats_inv sn p c0 s' (<[i := a']> threads).
Proof.
  intros [Hmap Hworks Hmutex (c & Hc & Hcnt & Hmu & Hwr)] Hi Hstep.
  pose proof (Hworks i a Hi) as Hwa.
  pose proof (recorded_insert threads i a a' Hi) as Hrec.
  assert (Hothers : forall j b, <[i := a']> threads !! j = Some b ->
            (j = i /\ b = a') \/ (j <> i /\ threads !! j = Some b))
    by (intros j b; by apply lookup_insert_cases with a).
  assert (Hi' : <[i := a']> threads !! i = Some a').
  { apply list_lookup_insert_eq. by apply lookup_lt_Some in Hi. }
  destruct a as [| |r|r|r v|r|]; simpl in Hwa; try done;
    try (apply bool_decide_eq_true in Hwa as ->); simpl in Hstep.
  - (* AtLookup *)
    rewrite Hmap in Hstep. simplify_eq. split; [done|..].
    + intros j b [[-> ->]|[_ Hj]]%Hothers; [by apply bool_decide_eq_true|eauto].
    + intros j k b d [[-> ->]|[Hji Hj]]%Hothers [[-> ->]|[Hki Hk]]%Hothers;
        try done. eauto.
    + exists c. split_and!; [done|by replace (recorded _) with (recorded threads) by (simpl in Hrec; lia)|..].
      * rewrite Hmu. split; intros (j & b & Hj & Hb).
        -- exists j, b. split; [|done].
           destruct (decide (j = i)) as [->|]; [by simplify_eq|].
           by rewrite list_lookup_insert_ne.
        -- apply Hothers in Hj as [[-> ->]|[_ Hj]]; [done|eauto].
      * intros j v [[-> ?]|[_ Hj]]%Hothers; [done|eauto].
  - (* AtLock *)
    rewrite Hc in Hstep. destruct (mu c) eqn:Hfree; [done|]. simplify_eq.
    assert (Hnone : forall j b, threads !! j = Some b -> critical b = false).
    { intros j b Hj. destruct (critical b) eqn:Hb; [|done].
      assert (false = true) by (apply Hmu; eauto). done. }
    split; [done|..].
    + intros j b [[-> ->]|[_ Hj]]%Hothers; [by apply bool_decide_eq_true|eauto].
    + intros j k b d [[-> ->]|[Hji Hj]]%Hothers [[-> ->]|[Hki Hk]]%Hothers Hb Hd;
        try done.
      * apply Hnone in Hk. congruence.
      * apply Hnone in Hj. congruence.
      * apply Hnone in Hk. congruence.
    + eexists. split_and!.
      * simpl. rewrite list_lookup_alter_eq, Hc. done.
      * simpl. replace (recorded _) with (recorded threads) by (simpl in Hrec; lia). done.
      * simpl. split; [|done]. intros _. by exists i, (AtLoad p).
      * intros j v [[-> ?]|[_ Hj]]%Hothers; [done|].
        apply Hnone in Hj. done.
  - (* AtLoad *)
    rewrite Hc in Hstep. simplify_eq. split; [done|..].
    + intros j b [[-> ->]|[_ Hj]]%Hothers; [by apply bool_decide_eq_true|eauto].
    + intros j k b d [[-> ->]|[Hji Hj]]%Hothers [[-> ->]|[Hki Hk]]%Hothers Hb Hd;
        try done; [symmetry| |]; eauto.
    + exists c. split_and!; [done|by replace (recorded _) with (recorded threads) by (simpl in Hrec; lia)|..].
      * rewrite Hmu. split; intros _; eauto.
      * intros j v [[-> ?]|[_ Hj]]%Hothers; [by simplify_eq|eauto].
  - (* AtWrite *)
    simplify_eq. pose proof (Hwr i v Hi) as ->. split; [done|..].
    + intros j b [[-> ->]|[_ Hj]]%Hothers; [by apply bool_decide_eq_true|eauto].
    + intros j k b d [[-> ->]|[Hji Hj]]%Hothers [[-> ->]|[Hki Hk]]%Hothers Hb Hd;
        try done; [symmetry| |]; eauto.
    + eexists. split_and!.
      * simpl. rewrite list_lookup_alter_eq, Hc. done.
      * simpl. rewrite Hcnt, wrap_uint64_succ. f_equal. simpl in Hrec. lia.
      * simpl. rewrite Hmu. split; intros _; eauto.
      * intros j v [[-> ?]|[Hji Hj]]%Hothers; [done|].
        destruct Hji. by apply (Hmutex j i (AtWrite p v) _ Hj Hi).
  - (* AtUnlock *)
    simplify_eq. split; [done|..].
    + intros j b [[-> ->]|[_ Hj]]%Hothers; [done|eauto].
    + intros j k b d [[-> ->]|[Hji Hj]]%Hothers [[-> ->]|[Hki Hk]]%Hothers Hb Hd;
        try done. eauto.
    + eexists. split_and!.
      * simpl. rewrite list_lookup_alter_eq, Hc. done.
      * simpl. replace (recorded _) with (recorded threads) by (simpl in Hrec; lia). done.
      * simpl. split; [done|]. intros (j & b & [[-> ->]|[Hji Hj]]%Hothers & Hb); [done|].
        destruct Hji. by apply (Hmutex j i b _ Hj Hi).
      * intros j v [[-> ?]|[Hji Hj]]%Hothers; [done|].
        destruct Hji. by apply (Hmutex j i (AtWrite p v) _ Hj Hi).
Qed.

Lemma run_inv (sched : list nat) (s s' : shared) (threads threads' : list pc) :
  stats_inv sn p c0 s threads ->
  run sn sched s threads = Some (s', threads') ->
  stats_inv sn p c0 s' threads' /\ length threads' = length threads.
Proof.
  revert s threads. induction sched as [|i sched IH]; intros s threads Hinv Hrun.
  - by simplify_eq/=.
  - simpl in Hrun.
    destruct (threads !! i) as [a|] eqn:Hi; [|done].
    destruct (step sn a s) as [[a' s1]|] eqn:Hstep; [|done].
    apply IH in Hrun as [? ->]; [|by eapply step_inv].
    by rewrite length_insert.
Qed.

Lemma all_done_recorded (threads : list pc) :
  all_done threads = true -> recorded threads = length threads.
Proof.
  unfold all_done, recorded. induction threads as [|[] threads IH]; simpl; try done.
  intros H. by rewrite IH.
Qed.

End Known.

(** For a device whose entry exists no recording is lost: whatever the
    interleaving, once all [n] handlers have returned the counter has grown
    by [n] (modulo the width of [uint64]). *)
Lemma recordings_on_known_device (sn : string) (p n : nat) (sched : list nat)
    (s s' : shared) (c : cell) (threads' : list pc) :
  smap s !! sn = Some p ->
  sheap s !! p = Some c ->
  mu c = false ->
  0 <= mqttCounter (stat c) < 2 ^ 64 ->
  run sn sched s (replicate n AtLookup) = Some (s', threads') ->
  all_done threads' = true ->
  counter sn s' = Some (wrap_uint64 (mqttCounter (stat c) + Z.of_nat n)).
Proof.
  intros Hmap Hc Hfree Hrange Hrun Hdone.
  assert (Hinit : stats_inv sn p (mqttCounter (stat c)) s (replicate n AtLookup)).
  { split; [done|..].
    - by intros i a [-> _]%lookup_replicate.
    - by intros i j a b [-> _]%lookup_replicate.
    - exists c. split_and!; [done|..].
      + replace (recorded _) with 0%nat.
        * unfold wrap_uint64. rewrite Z.add_0_r, Z.mod_small; done.
        * unfold recorded. clear. induction n; simpl; lia.
      + rewrite Hfree. split; [done|].
        by intros (i & a & [-> _]%lookup_replicate & ?).
      + by intros i v [? _]%lookup_replicate. }
  destruct (run_inv _ _ _ _ _ _ _ _ Hinit Hrun)
    as [[Hmap' _ _ (c' & Hc' & Hcnt & _)] Hlen].
  unfold counter. rewrite Hmap', Hc'. simpl. rewrite Hcnt.
  by rewrite all_done_recorded, Hlen, length_replicate.
Qed.

(** One thread alone does what the sequential handler does with the
    statistics. *)
Lemma alone_steps (l : list statMqtt) (p : nat) (x : statMqtt) :
  l !! p = Some x ->
  alter (fun c => {| stat := stat c; mu := false |}) p
    (alter (fun c => {| stat := {| mqttCounter := wrap_uint64 (mqttCounter x + 1);
                                   httpCounter := httpCounter (stat c) |};
                        mu := mu c |}) p
       (alter (fun c => {| stat := stat c; mu := true |}) p (cell_of <$> l)))
  = cell_of <$>
      alter (fun s => {| mqttCounter := wrap_uint64 (mqttCounter s + 1);
                         httpCounter := httpCounter s |}) p l.
Proof.
  intros Hp. apply list_eq. intros j. destruct (decide (j = p)) as [->|Hne].
  - rewrite !list_lookup_alter_eq, !list_lookup_fmap, list_lookup_alter_eq, Hp.
    done.
  - rewrite !list_lookup_alter_ne, !list_lookup_fmap, list_lookup_alter_ne by done.
    done.
Qed.

Lemma run_alone (sn : string) (p : nat) (x : statMqtt) (s : shared)
    (l : list statMqtt) :
  smap s !! sn = Some p ->
  sheap s = cell_of <$> l ->
  l !! p = Some x ->
  run sn [0; 0; 0; 0]%nat s [AtLock p]
  = Some ({| smap := smap s;
             sheap := cell_of <$>
               alter (fun s => {| mqttCounter := wrap_uint64 (mqttCounter s + 1);
                                  httpCounter := httpCounter s |}) p l |},
          [Done]).
Proof.
  intros Hmap Hheap Hp. destruct s as [m h]. simpl in *. subst h.
  rewrite list_lookup_fmap, Hp. simpl.
  rewrite list_lookup_alter_eq, list_lookup_fmap, Hp. simpl.
  unfold set_cell. simpl. by rewrite alone_steps.
Qed.

(** The interleaving semantics agrees with the sequential model: one handler
    running alone reaches the statistics state that [recordBrokerMessage]
    computes, with the mutex of the entry released. *)
Lemma recordBrokerMessage_alone (msg : Message) (st : State) :
  let sn := getSnFromTopic (Topic msg) in
  (forall p, mapStatMqtt st !! sn = Some p -> is_Some (heap st !! p)) ->
  exists sched,
    run sn sched (shared_of st) [AtLookup]
    = Some (shared_of (recordBrokerMessage msg st).1, [Done]).
Proof.
  intros sn Hvalid. unfold recordBrokerMessage, bind, GetStatEntry. fold sn.
  destruct (mapStatMqtt st !! sn) as [p|] eqn:Hmap.
  - destruct (Hvalid p eq_refl) as [x Hx].
    exists [0; 0; 0; 0; 0]%nat.
    change (run sn (0%nat :: ?sched) (shared_of st) [AtLookup])
      with (match step sn AtLookup (shared_of st) with
            | Some (a, s1) => run sn sched s1 [a]
            | None => None
            end).
    cbn [step shared_of smap]. rewrite Hmap.
    by erewrite run_alone.
  - exists [0; 0; 0; 0; 0; 0]%nat.
    change (run sn (0%nat :: ?sched) (shared_of st) [AtLookup])
      with (match step sn AtLookup (shared_of st) with
            | Some (a, s1) => run sn sched s1 [a]
            | None => None
            end).
    cbn [step shared_of smap]. rewrite Hmap.
    change (run sn (0%nat :: ?sched) ?s [AtStore])
      with (match step sn AtStore s with
            | Some (a, s1) => run sn sched s1 [a]
            | None => None
            end).
    cbn [step smap sheap].
    erewrite (run_alone sn _ {| mqttCounter := 0; httpCounter := 0 |} _
                (heap st ++ [{| mqttCounter := 0; httpCounter := 0 |}])).
    + unfold shared_of. cbn. by rewrite length_fmap.
    + cbn. apply lookup_insert_eq.
    + cbn. by rewrite fmap_app.
    + cbn. rewrite length_fmap. by rewrite lookup_app_r, Nat.sub_diag.
Qed.

End InterleavingFacts.

(** C6, where the code departs from it: two handler invocations for a device
    that has no entry yet. Both find the map without an entry, both store a
    fresh [statMqtt], each increments its own under its own mutex; the second
    store replaces the first, and the counter of the device ends at 1 after
    two recordings. *)
Theorem GetStatEntry_race_loses_recording :
  match
    Interleaving.run "DEV1" racingSchedule freshMemory
      [Interleaving.AtLookup; Interleaving.AtLookup]
  with
  | Some (s, threads) =>
      threads = [Interleaving.Done; Interleaving.Done] /\
      Interleaving.counter "DEV1" s = Some 1 /\
      length (Interleaving.sheap s) = 2%nat
  | None => False
  end.
Proof. vm_compute. done. Qed.

(** The same two invocations, the second after the first has returned. *)
Example recordings_one_after_the_other :
  match
    Interleaving.run "DEV1" oneAfterTheOther freshMemory
      [Interleaving.AtLookup; Interleaving.AtLookup]
  with
  | Some (s, threads) =>
      threads = [Interleaving.Done; Interleaving.Done] /\
      Interleaving.counter "DEV1" s = Some 2 /\
      length (Interleaving.sheap s) = 1%nat
  | None => False
  end.
Proof. vm_compute. done. Qed.

(** ** Further facts: the signature *)

Lemma pretty_N_char_digit (x : N) : is_digit (pretty_N_char x) = true.
Proof. unfold pretty_N_char. by repeat case_match. Qed.

Lemma Itoa_six_digits (n : Z) :
  100000 <= n <= 999999 ->
  String.length (Itoa n) = 6%nat /\
  forallb is_digit (String.list_ascii_of_string (Itoa n)) = true.
Proof.
  intros Hn. destruct n as [|p|p]; try lia.
  unfold Itoa, pretty, pretty_Z, pretty, pretty_positive, pretty, pretty_N.
  rewrite decide_False by done.
  assert (Hx : (100000 <= N.pos p <= 999999)%N) by lia.
  generalize dependent (N.pos p). intros x Hx.
  do 6 (rewrite pretty_N_go_step;
        [|apply N.div_str_pos_iff || idtac; try lia;
          repeat (apply N.div_le_lower_bound; [lia|]); lia]).
  assert (Hzero : N.div (N.div (N.div (N.div (N.div (N.div x 10) 10) 10) 10) 10) 10
                  = 0%N).
  { rewrite !N.Div0.div_div. apply N.div_small. lia. }
  rewrite Hzero, pretty_N_go_0.
  cbn [String.length String.list_ascii_of_string forallb].
  by rewrite !pretty_N_char_digit.
Qed.

(** The nonce is a string of six decimal digits whenever the random source
    keeps to its range. *)
Theorem generateNonce_six_digits (X : Externals) :
  0 <= rand_Intn X 900000 < 900000 ->
  String.length (generateNonce X) = 6%nat /\
  forallb is_digit (String.list_ascii_of_string (generateNonce X)) = true.
Proof. intros Hr. apply Itoa_six_digits. lia. Qed.

Lemma generateNonce_six_digits_witness :
  0 <= rand_Intn offline 900000 < 900000 /\
  generateNonce offline = "123456" /\
  String.length (generateNonce offline) = 6%nat.
Proof.
  assert (Hr : 0 <= rand_Intn offline 900000 < 900000) by (simpl; lia).
  split; [exact Hr|]. split; [reflexivity|].
  exact (proj1 (generateNonce_six_digits offline Hr)).
Defined.




(** The canonical query string does not tell a nested mapping from a dotted
    key: a parameter [k1.k2] and a parameter [k1] holding a mapping with the
    one key [k2] are signed alike. *)
Theorem generateQueryParams_dotted_key (X : Externals) (k1 k2 : string)
    (v : value) (data : gomap) :
  generateQueryParams X ((k1 +:+ "." +:+ k2, v) :: data)
  = generateQueryParams X ((k1, VMap [(k2, v)]) :: data).
Proof.
  unfold generateQueryParams, flattenParams. cbn [flat_map fst snd].
  rewrite processValue_VMap. cbn [flat_map fst snd]. by rewrite app_nil_r.
Qed.

Lemma sort_Strings_two (a b : string) :
  String.le a b -> sort_Strings [a; b] = [a; b].
Proof.
  intros Hab. apply (Sorted_unique String.le).
  - apply Sorted_merge_sort, _.
  - repeat constructor. done.
  - apply merge_sort_Permutation.
Qed.

(** Values are not escaped: a string value that contains [&k2=v2] is signed
    like two parameters. *)
Theorem generateQueryParams_unescaped (X : Externals) (k1 v1 k2 v2 : string) :
  String.le (k1 +:+ "=" +:+ v1) (k2 +:+ "=" +:+ v2) ->
  generateQueryParams X [(k1, VString (v1 +:+ "&" +:+ k2 +:+ "=" +:+ v2))]
  = generateQueryParams X [(k1, VString v1); (k2, VString v2)].
Proof.
  intros Hle. unfold generateQueryParams, flattenParams.
  cbn [flat_map fst snd processValue app].
  rewrite sort_Strings_two by done.
  cbn [strings_Join]. unfold sort_Strings. cbn.
  by rewrite !string_app_assoc.
Qed.

Lemma generateQueryParams_unescaped_witness :
  String.le ("a" +:+ "=" +:+ "1") ("b" +:+ "=" +:+ "2") /\
  generateQueryParams offline [("a", VString "1&b=2")]
  = generateQueryParams offline [("a", VString "1"); ("b", VString "2")].
Proof.
  assert (Hle : String.le ("a" +:+ "=" +:+ "1") ("b" +:+ "=" +:+ "2"))
    by (vm_compute; exact I).
  split; [exact Hle|].
  exact (generateQueryParams_unescaped offline "a" "1" "b" "2" Hle).
Defined.

(** ** Further facts: the REST client *)

Section ExecuteFacts.
Context (X : Externals).

Lemma Execute_cases (r : HttpRequest) :
((method r ∉ ["GET"; "POST"; "PUT"]) /\
   Execute X r = Err "unsupported http method") \/
  exists req,
    sent_by X r req /\
    Execute X r =
    match http_Do X req with
    | Err err => Err err
    | Ok resp =>
        if decide (StatusCode resp <> 200) then
          Err ("response status is failed|url=" +:+
               (uri r +:+ "?" +:+ queryParams (generateSignParameters X r)) +:+
               ", statusCode=" +:+ Status resp)
        else Body resp
    end.
Proof.
  assert (Hsign :
    sign (generateSignParameters X r)
    = encryptHmacSHA256 X
        (signingBase (queryParams (generateSignParameters X r)) (hrAccessKey r)
           (nonce (generateSignParameters X r))
           (timestamp (generateSignParameters X r))) (hrSecretKey r)).
  { cbn [sign queryParams nonce timestamp generateSignParameters].
    unfold generateSign. by rewrite getKeyValueString_signingBase. }
  unfold Execute.
  destruct (decide (method r = "GET")) as [Hm|Hget];
    [|destruct (decide (method r = "POST")) as [Hm|Hpost];
      [|destruct (decide (method r = "PUT")) as [Hm|Hput]]].
  4: { left. split; [|done]. rewrite !elem_of_cons, elem_of_nil. tauto. }
  all: right; eexists; split; [|reflexivity].
  all: unfold sent_by;
    cbn [reqMethod reqURL reqBody reqHeader signHeaders];
    split_and!; try done;
    try (rewrite Hm, !elem_of_cons; tauto);
    try (intros x Hx; rewrite elem_of_cons; by right);
    try (by intros ?).
Qed.

End ExecuteFacts.

Section RestFurther.
Context (X : Externals).

(** When [Execute] returns a body, the transport answered 200 with that body
    to a request that carries the method of the call and a signature that
    matches the nonce, timestamp and query string sent with it. *)
Theorem Execute_success_signed (r : HttpRequest) (body : string) :
  Execute X r = Ok body ->
  exists req resp,
    sent_by X r req /\ http_Do X req = Ok resp /\
    StatusCode resp = 200 /\ Body resp = Ok body.
Proof.
  intros Hexec. destruct (Execute_cases X r) as [[_ Hun]|(req & Hsent & Hrun)].
  - congruence.
  - rewrite Hrun in Hexec. exists req.
    destruct (http_Do X req) as [resp|]; [|done]. exists resp.
    case_decide as Hst; [done|]. split_and!; try done.
    all: by apply dec_stable.
Qed.

(** The ways [Execute] fails: a method other than GET, POST and PUT (nothing
    is sent), an error of the transport (returned as it is), a status other
    than 200 (the error names the URL and the status line), or an error while
    reading the body. *)
Theorem Execute_failure_modes (r : HttpRequest) (e : error) :
  Execute X r = Err e ->
  ((method r ∉ ["GET"; "POST"; "PUT"]) /\ e = "unsupported http method") \/
  exists req, sent_by X r req /\
    (http_Do X req = Err e \/
     exists resp, http_Do X req = Ok resp /\
       ((StatusCode resp <> 200 /\ contains e (uri r) /\
         contains e (Status resp)) \/
        (StatusCode resp = 200 /\ Body resp = Err e))).
Proof.
  intros Hexec. destruct (Execute_cases X r) as [[Hm Hun]|(req & Hsent & Hrun)].
  - left. split; [done|congruence].
  - right. exists req. split; [done|]. rewrite Hrun in Hexec.
    destruct (http_Do X req) as [resp|]; [|left; congruence].
    right. exists resp. split; [done|].
    case_decide as Hst.
    + left. simplify_eq. split_and!; [done|..].
      * exists "response status is failed|url=", ("?" +:+ queryParams
          (generateSignParameters X r) +:+ ", statusCode=" +:+ Status resp).
        by rewrite !string_app_assoc.
      * eexists _, "". rewrite string_app_nil_r.
        by rewrite <- !string_app_assoc.
    + right. split; [|done].
      destruct (decide (StatusCode resp = 200)); [done|by destruct Hst].
Qed.

(** What [GetDeviceList] can return: an envelope without error only when its
    code is 0; an envelope together with an error when its code is anything
    else; no envelope and the error of the request or of the decoding; never
    neither. *)
Theorem GetDeviceList_results (c : Client) :
  match GetDeviceList X c with
  | (Some deviceResponse, None) =>
      dlCode deviceResponse = "0" /\
      exists response,
        Execute X (deviceListRequest c) = Ok response /\
        json_Unmarshal_DeviceListResponse X response = Ok deviceResponse
  | (Some deviceResponse, Some _) => dlCode deviceResponse <> "0"
  | (None, Some err) =>
      Execute X (deviceListRequest c) = Err err \/
      exists response,
        Execute X (deviceListRequest c) = Ok response /\
        json_Unmarshal_DeviceListResponse X response = Err err
  | (None, None) => False
  end.
Proof.
  unfold GetDeviceList.
  change (NewHttpRequest _ _ _ _ _) with (deviceListRequest c).
  destruct (Execute X _) as [response|err]; [|by left].
  destruct (json_Unmarshal_DeviceListResponse X response) as [dr|err] eqn:Hjson;
    [|right; eauto].
  case_decide as Hcode; [done|]. split; [|eauto].
  destruct (decide (dlCode dr = "0")); [done|by destruct Hcode].
Qed.

(** [GetDeviceInfo] returns a mapping only from an envelope whose code is
    the string 0: the whole envelope for the empty selector, and otherwise
    the mapping stored under the selector. *)
Theorem GetDeviceInfo_success (c : Client) (deviceSn specific : string)
    (m : gomap) :
  GetDeviceInfo X c deviceSn specific = Ok m ->
  exists response jsonData,
    Execute X (deviceInfoRequest c deviceSn) = Ok response /\
    json_Unmarshal_map X response = Ok jsonData /\
    mapaccess jsonData "code" = Some (VString "0") /\
    (specific = "" -> m = jsonData) /\
    (specific <> "" -> mapaccess jsonData specific = Some (VMap m)).
Proof.
  unfold GetDeviceInfo.
  change (NewHttpRequest _ _ _ _ _) with (deviceInfoRequest c deviceSn).
  destruct (Execute X _) as [response|] eqn:Hexec; [|done].
  destruct (json_Unmarshal_map X response) as [jsonData|] eqn:Hjson; [|done].
  destruct (mapaccess jsonData "code") as [[| | |code| | | |]|] eqn:Hcode;
    cbn [assert_string]; try (rewrite decide_True by (by left); done).
  case_decide as Hc; [done|].
  assert (code = "0") as ->.
  { destruct (decide (code = "0")); [done|]. destruct Hc. by right. }
  intros Hm. exists response, jsonData. split_and!; try done.
  - intros ->. rewrite decide_False in Hm by (by intros []). by simplify_eq.
  - intros Hs. rewrite decide_True in Hm by done.
    destruct (mapaccess jsonData specific) as [[]|]; by simplify_eq/=.
Qed.


End RestFurther.

Lemma Execute_success_signed_witness :
  Execute restAnswers (deviceInfoRequest someClient "ABC") = Ok quotaBody /\
  exists req resp,
    sent_by restAnswers (deviceInfoRequest someClient "ABC") req /\
    http_Do restAnswers req = Ok resp /\
    StatusCode resp = 200 /\ Body resp = Ok quotaBody.
Proof.
  assert (Hexec : Execute restAnswers (deviceInfoRequest someClient "ABC")
                  = Ok quotaBody) by (vm_compute; reflexivity).
  split; [exact Hexec|].
  exact (Execute_success_signed restAnswers _ _ Hexec).
Defined.

Lemma Execute_failure_modes_witness :
  Execute offline (deviceListRequest someClient)
  = Err "dial tcp: connection refused" /\
  exists req, sent_by offline (deviceListRequest someClient) req.
Proof.
  assert (Hexec : Execute offline (deviceListRequest someClient)
                  = Err "dial tcp: connection refused")
    by (vm_compute; reflexivity).
  split; [exact Hexec|].
  destruct (Execute_failure_modes offline _ _ Hexec)
    as [[_ Hun]|(req & Hsent & _)]; [discriminate Hun|].
  by exists req.
Defined.

Lemma GetDeviceInfo_success_witness :
  GetDeviceInfo restAnswers someClient "ABC" "data"
  = Ok [("pd.standbyMin", VString "30")] /\
  exists response jsonData,
    Execute restAnswers (deviceInfoRequest someClient "ABC") = Ok response /\
    json_Unmarshal_map restAnswers response = Ok jsonData /\
    mapaccess jsonData "data" = Some (VMap [("pd.standbyMin", VString "30")]).
Proof.
  assert (Hget : GetDeviceInfo restAnswers someClient "ABC" "data"
                 = Ok [("pd.standbyMin", VString "30")])
    by (vm_compute; reflexivity).
  split; [exact Hget|].
  destruct (GetDeviceInfo_success restAnswers _ _ _ _ Hget)
    as (response & jsonData & Hexec & Hjson & _ & _ & Hsel).
  exists response, jsonData. split; [exact Hexec|]. split; [exact Hjson|].
  apply Hsel. discriminate.
Defined.


(** ** Further facts: credentials, device list and subscriptions *)

(** [getMqttCredentials] panics exactly when one of the two bodies decodes
    to a nil pointer (the JSON document null): the result of
    [json.Unmarshal] is dereferenced without a nil check. *)
Theorem getMqttCredentials_panics_iff (X : Externals) (email password : string) :
  (exists reason, getMqttCredentials X email password = Panics reason) <->
  getLoginResponse X email password = Ok None \/
  exists login resp body,
    getLoginResponse X email password = Ok (Some login) /\
    http_Do X (certificationRequest X login) = Ok resp /\
    Body resp = Ok body /\
    json_Unmarshal_MqttCredentialsResponse X body = Ok None.
Proof.
  unfold getMqttCredentials.
  destruct (getLoginResponse X email password) as [[login|]|err].
  - change (http_Do X {| reqMethod := "GET"; reqURL := _; reqBody := _;
                         reqHeader := _ |})
      with (http_Do X (certificationRequest X login)).
    destruct (http_Do X (certificationRequest X login)) as [resp|err] eqn:Hdo.
    + destruct (Body resp) as [body|err] eqn:Hbody.
      * destruct (json_Unmarshal_MqttCredentialsResponse X body)
          as [[mqttConn|]|err] eqn:Hjson.
        -- split; [by intros [? ?]|].
           intros [?|(l & r & b & ? & ? & ? & ?)]; [done|].
           simplify_eq. congruence.
        -- split; [|by eexists]. intros _. right.
           by exists login, resp, body.
        -- split; [by intros [? ?]|].
           intros [?|(l & r & b & ? & ? & ? & ?)]; [done|].
           simplify_eq. congruence.
      * split; [by intros [? ?]|].
        intros [?|(l & r & b & ? & ? & ? & ?)]; [done|].
        simplify_eq. congruence.
    + split; [by intros [? ?]|].
      intros [?|(l & r & b & ? & ? & ? & ?)]; [done|].
      simplify_eq. congruence.
  - split; [by left|by eexists].
  - split; [by intros [? ?]|]. by intros [?|(l & r & b & ? & _)].
Qed.

(** [RefreshDeviceList] either keeps the device list it had or installs an
    envelope with code 0 that [GetDeviceList] returned without error; a
    failed refresh never replaces the list, and nothing else changes. *)
Theorem RefreshDeviceList_devices (X : Externals) (client : Client) (s : Session) :
  let s' := RefreshDeviceList X client s in
  ecoclient s' = ecoclient s /\ subscribed s' = subscribed s /\
  ((devices s' = devices s /\ (GetDeviceList X client).2 <> None) \/
   exists list, devices s' = Some list /\ dlCode list = "0" /\
     GetDeviceList X client = (Some list, None)).
Proof.
  unfold RefreshDeviceList, GetDeviceList. cbv zeta.
  destruct (Execute X _) as [response|err]; simpl; [|by split_and!; [..|left]].
  destruct (json_Unmarshal_DeviceListResponse X response) as [dr|err]; simpl;
    [|by split_and!; [..|left]].
  case_decide as Hcode; simpl.
  - by split_and!; [..|left].
  - split_and!; [done..|]. right. by exists dr.
Qed.

(** [strings.Split] at a separator: the pieces of the text before it, then
    the pieces of the text after it. *)
Lemma strings_Split_nonempty (s : string) (sep : ascii) :
  strings_Split s sep <> [].
Proof.
  induction s as [|c s IH]; simpl; [done|].
  case_decide; [done|]. by destruct (strings_Split s sep).
Qed.

Lemma strings_Split_app (pre s : string) (sep : ascii) :
  strings_Split (pre +:+ String sep s) sep
  = (strings_Split pre sep ++ strings_Split s sep)%list.
Proof.
  unfold String.app. induction pre as [|c pre IH]; simpl.
  - by rewrite decide_True.
  - case_decide; [by rewrite IH|]. rewrite IH.
    pose proof (strings_Split_nonempty pre sep).
    by destruct (strings_Split pre sep).
Qed.

Lemma strings_Split_no_sep (s : string) (sep : ascii) :
  sep ∉ String.list_ascii_of_string s -> strings_Split s sep = [s].
Proof.
  induction s as [|c s IH]; simpl; [done|].
  rewrite not_elem_of_cons. intros [Hc Hs].
  rewrite decide_False by done. by rewrite IH.
Qed.

(** The serial number read back from the topic a device is subscribed under
    is the serial number of the device, provided it contains no slash. *)
Theorem getSnFromTopic_topicParams (deviceSn : string) :
  has_slash deviceSn = false ->
  getSnFromTopic (topicParams deviceSn) = deviceSn.
Proof.
  intros Hs%bool_decide_eq_false. unfold getSnFromTopic, topicParams.
  change ("/app/device/property/" +:+ deviceSn)
    with ("/app/device/property" +:+ String "/"%char deviceSn).
  rewrite strings_Split_app, last_app, strings_Split_no_sep by done. done.
Qed.

Lemma getSnFromTopic_topicParams_witness :
  has_slash "HW51ZOH4SF4B1234" = false /\
  getSnFromTopic (topicParams "HW51ZOH4SF4B1234") = "HW51ZOH4SF4B1234".
Proof.
  split; [vm_compute; reflexivity|].
  apply getSnFromTopic_topicParams. vm_compute; reflexivity.
Defined.

Lemma strings_Split_last (s : string) (sep : ascii) :
  ((sep ∉ String.list_ascii_of_string s) /\ strings_Split s sep = [s]) \/
  exists b lp rest,
    s = b +:+ String sep lp /\ (sep ∉ String.list_ascii_of_string lp) /\
    strings_Split s sep = (rest ++ [lp])%list /\ rest <> [].
Proof.
  induction s as [|c s [[Hno Hs]|(b & lp & rest & -> & Hno & Hs & Hrest)]];
    cbn [strings_Split].
  - left. split; [apply not_elem_of_nil|done].
  - case_decide as Hc.
    + subst c. right. exists "", s, [""]. by rewrite Hs.
    + left. rewrite Hs. split; [|done].
      simpl. rewrite not_elem_of_cons. by split; [congruence|].
  - right. case_decide as Hc.
    + subst c. exists (String sep b), lp, ("" :: rest). by rewrite Hs.
    + rewrite Hs. destruct rest as [|x xs]; [done|].
      by exists (String c b), lp, (String c x :: xs).
Qed.

(** [getSnFromTopic] never fails and returns the trailing segment of the
    topic: the topic is a text that is empty or ends with a slash, followed
    by the result, and the result contains no slash. *)
Theorem getSnFromTopic_trailing_segment (topic : string) :
  last (strings_Split topic "/"%char) = Some (getSnFromTopic topic) /\
  has_slash (getSnFromTopic topic) = false /\
  exists before,
    topic = before +:+ getSnFromTopic topic /\
    (before = "" \/ exists b, before = b +:+ "/").
Proof.
  unfold getSnFromTopic, has_slash.
  destruct (strings_Split_last topic "/"%char)
    as [[Hno ->]|(b & lp & rest & -> & Hno & -> & _)].
  - simpl. split_and!; [done|by apply bool_decide_eq_false|].
    exists "". by split; [|left].
  - rewrite last_snoc. simpl. split_and!; [done|by apply bool_decide_eq_false|].
    exists (b +:+ "/"). split; [by rewrite string_app_assoc|].
    right. by exists b.
Qed.

(** With a client in place, [OnConnect] panics when no device list has been
    fetched yet, and otherwise subscribes once per known device, in the
    order of the list, to the topic of that device with quality of service 1,
    and returns; no outcome of a subscription is looked at. *)
Lemma subscribeDevices_all (ds : list DeviceInfo) (s : Session) :
  ecoclient s = hook_set ->
  subscribeDevices ds s
  = ({| devices := devices s; ecoclient := ecoclient s;
        subscribed :=
          subscribed s ++ ((fun d => {[topicParams (SN d) := 1]}) <$> ds) |},
     Returns tt).
Proof.
  revert s. induction ds as [|d ds IH]; intros s Hc; simpl.
  - rewrite app_nil_r. by destruct s.
  - unfold SubscribeForParameters, SubscribeToTopics. rewrite Hc. simpl.
    rewrite IH by done. simpl. rewrite insert_empty.
    by rewrite <- (assoc_L (++)).
Qed.

(** With a client in place, [OnConnect] dereferences the device list, which
    panics while none is stored, and otherwise subscribes once per device, in
    the order of the list, to the single property topic of that device with
    QoS 1. *)
Theorem OnConnect_subscribes (s : Session) :
  ecoclient s = hook_set ->
  OnConnect s =
  match devices s with
  | None => (s, Panics nilDereference)
  | Some d =>
      ({| devices := devices s; ecoclient := ecoclient s;
          subscribed :=
            subscribed s ++
            ((fun dev => {[topicParams (SN dev) := 1]}) <$> Devices d) |},
       Returns tt)
  end.
Proof.
  intros Hc. unfold OnConnect. destruct (devices s) as [d|] eqn:Hd; [|done].
  rewrite subscribeDevices_all by done. by rewrite Hd.
Qed.

Lemma OnConnect_subscribes_witness :
  let s := {| devices := Some deviceListEnvelope; ecoclient := hook_set;
              subscribed := [] |} in
  ecoclient s = hook_set /\
  OnConnect s =
  ({| devices := Some deviceListEnvelope; ecoclient := hook_set;
      subscribed := [{["/app/device/property/ABC" := 1]}] |}, Returns tt).
Proof.
  intros s. split; [reflexivity|].
  rewrite (OnConnect_subscribes s eq_refl). reflexivity.
Defined.

(** ** Further facts: the statistics of the handler *)

Lemma same_stats_refl (st : State) : same_stats st st.
Proof. by split_and!. Qed.

Lemma same_stats_trans (st1 st2 st3 : State) :
  same_stats st1 st2 -> same_stats st2 st3 -> same_stats st1 st3.
Proof. intros (? & ? & ?) (? & ? & ?). split_and!; congruence. Qed.

Lemma bind_same_stats {A B} (m : M A) (k : A -> M B) :
  (forall st, same_stats st (m st).1) ->
  (forall a st, same_stats st (k a st).1) ->
  forall st, same_stats st (bind m k st).1.
Proof.
  intros Hm Hk st. unfold bind. specialize (Hm st).
  destruct (m st) as [st' [a|reason]]; [|done].
  eapply same_stats_trans; [exact Hm|apply Hk].
Qed.

Lemma CallHandler_same_stats (e : Entry) (st : State) :
  same_stats st (CallHandler e st).1.
Proof. unfold CallHandler. by destruct (caller st). Qed.

Lemma callCallback_same_stats (sn : string) (data : gomap) (st : State) :
  same_stats st (callCallback sn data st).1.
Proof. unfold callCallback. by destruct (Callback st). Qed.

Lemma forEach_same_stats {A} (l : list A) (body : A -> M unit) :
  (forall a st, same_stats st (body a st).1) ->
  forall st, same_stats st (forEach l body st).1.
Proof.
  intros Hbody. induction l as [|a l IH]; intros st; simpl.
  - apply same_stats_refl.
  - apply bind_same_stats; [apply Hbody|done].
Qed.

Section StatsFacts.
Context (X : Externals).

Lemma DisplayPayload_same_stats (sn frame : string) (st : State) :
  same_stats st (DisplayPayload X sn frame st).1.
Proof.
  unfold DisplayPayload.
  destruct (proto_Unmarshal_SendHeaderMsg X frame) as [platform|];
    [|apply same_stats_refl].
  repeat case_decide; try apply same_stats_refl.
  - destruct (Msg platform) as [msg|]; [|apply same_stats_refl].
    destruct (proto_Unmarshal_InverterHeartbeat X _); [|apply same_stats_refl].
    apply bind_same_stats; intros; [apply CallHandler_same_stats|].
    apply same_stats_refl.
  - destruct (Msg platform) as [msg|]; [|apply same_stats_refl].
    destruct (proto_Unmarshal_PowerPack X _); [|apply same_stats_refl].
    apply bind_same_stats; intros; [|apply same_stats_refl].
    apply forEach_same_stats. intros. apply CallHandler_same_stats.
Qed.

Lemma must_slice_same_stats (s : string) (lo hi : Z) (st : State) :
  same_stats st (must_slice s lo hi st).1.
Proof. unfold must_slice. destruct (slice s lo hi); apply same_stats_refl. Qed.

Lemma handleBinary_same_stats (sn payload : string) (st : State) :
  same_stats st (handleBinary X sn payload st).1.
Proof.
  unfold handleBinary. cbv zeta.
  apply bind_same_stats; [apply must_slice_same_stats|]. intros frame.
  apply bind_same_stats; [apply DisplayPayload_same_stats|]. intros _.
  case_decide; [|apply same_stats_refl].
  apply bind_same_stats; [apply must_slice_same_stats|]. intros rest.
  apply bind_same_stats; [apply must_slice_same_stats|]. intros frame'.
  apply bind_same_stats; [apply DisplayPayload_same_stats|]. intros _.
  apply same_stats_refl.
Qed.

Lemma handleJSON_same_stats (sn : string) (data : gomap) (st : State) :
  same_stats st (handleJSON X sn data st).1.
Proof.
  unfold handleJSON.
  apply bind_same_stats.
  { intros st0. destruct (debugEnvelope_cases X data st0)
      as [->|(reason & _ & ->)]; apply same_stats_refl. }
  intros _. apply bind_same_stats.
  { intros st0. destruct (mapaccess data "params") as [[]|]; apply same_stats_refl. }
  intros data'. apply callCallback_same_stats.
Qed.

(** After the statistics statements the state is well formed again, the
    counter of the device of the message is one higher, and no other counter
    has changed. *)
Lemma recordBrokerMessage_stats (msg : Message) (st : State) :
  stats_wf st ->
  let st1 := (recordBrokerMessage msg st).1 in
  stats_wf st1 /\
  forall sn,
    mqttCount st1 sn =
    if decide (sn = getSnFromTopic (Topic msg))
    then wrap_uint64 (mqttCount st sn + 1) else mqttCount st sn.
Proof.
  intros [Hvalid Hdistinct Hrange].
  set (dev := getSnFromTopic (Topic msg)).
  assert (Hbound : forall z, 0 <= wrap_uint64 z < 2 ^ 64)
    by (intros z; apply Z.mod_pos_bound; lia).
  unfold recordBrokerMessage, bind, GetStatEntry. fold dev.
  destruct (mapStatMqtt st !! dev) as [p|] eqn:Hdev; cbn.
  - split.
    + split; cbn.
      * intros sn q Hq. rewrite length_alter. eauto.
      * done.
      * apply Forall_alter; [done|]. intros s _ _. cbn. apply Hbound.
    + intros sn. unfold mqttCount. cbn. case_decide as Hsn.
      * subst sn. rewrite Hdev, list_lookup_alter_eq.
        destruct (lookup_lt_is_Some_2 (heap st) p (Hvalid _ _ Hdev)) as [s ->].
        done.
      * destruct (mapStatMqtt st !! sn) as [r|] eqn:Hr; [|done].
        rewrite list_lookup_alter_ne; [done|].
        intros <-. destruct Hsn. by eapply Hdistinct.
  - split.
    + split; cbn.
      * intros sn q. rewrite length_alter, length_app. cbn.
        destruct (decide (sn = dev)) as [->|Hne].
        -- rewrite lookup_insert_eq. intros [= <-]. lia.
        -- rewrite lookup_insert_ne by done. intros Hq%Hvalid. lia.
      * intros sn1 sn2 q.
        destruct (decide (sn1 = dev)) as [->|Hne1],
                 (decide (sn2 = dev)) as [->|Hne2]; try done.
        -- rewrite lookup_insert_eq, lookup_insert_ne by done.
           intros [= <-] Hq%Hvalid. lia.
        -- rewrite lookup_insert_eq, lookup_insert_ne by done.
           intros Hq%Hvalid [= <-]. lia.
        -- rewrite !lookup_insert_ne by done. apply Hdistinct.
      * apply Forall_alter.
        -- apply Forall_app. split; [done|]. repeat constructor; cbn; lia.
        -- intros s _ _. cbn. apply Hbound.
    + intros sn. unfold mqttCount. cbn. case_decide as Hsn.
      * subst sn. rewrite Hdev, lookup_insert_eq, list_lookup_alter_eq.
        by rewrite lookup_app_r, Nat.sub_diag.
      * rewrite lookup_insert_ne by done.
        destruct (mapStatMqtt st !! sn) as [r|] eqn:Hr; [|done].
        pose proof (Hvalid _ _ Hr).
        rewrite list_lookup_alter_ne by lia. by rewrite lookup_app_l.
Qed.

Lemma MessageHandler_same_stats (msg : Message) (st : State) :
  same_stats (recordBrokerMessage msg st).1 (MessageHandler X msg st).1.
Proof.
  rewrite MessageHandler_unfold.
  destruct (json_Unmarshal_map X (Payload msg));
    [apply handleJSON_same_stats|apply handleBinary_same_stats].
Qed.

Lemma same_stats_wf (st st' : State) :
  same_stats st st' -> stats_wf st -> stats_wf st'.
Proof. intros (Hh & Hm & _) [? ? ?]. split; rewrite ?Hh, ?Hm; done. Qed.

Lemma same_stats_mqttCount (st st' : State) (sn : string) :
  same_stats st st' -> mqttCount st' sn = mqttCount st sn.
Proof. intros (Hh & Hm & _). unfold mqttCount. by rewrite Hh, Hm. Qed.

Lemma MessageHandler_stats (msg : Message) (st : State) :
  stats_wf st ->
  let st' := (MessageHandler X msg st).1 in
  stats_wf st' /\
  forall sn,
    mqttCount st' sn =
    if decide (sn = getSnFromTopic (Topic msg))
    then wrap_uint64 (mqttCount st sn + 1) else mqttCount st sn.
Proof.
  intros Hwf. destruct (recordBrokerMessage_stats msg st Hwf) as [Hwf1 Hcount].
  pose proof (MessageHandler_same_stats msg st) as Hsame.
  split; [by eapply same_stats_wf|].
  intros sn. by rewrite (same_stats_mqttCount _ _ sn Hsame).
Qed.

(** Every message is counted, whatever becomes of it: when the handler
    returns or panics, the broker counter of the device named by the topic
    is one higher (modulo 2^64), the counters of all other devices are
    unchanged, the topic counter is one higher, and the pointers of the
    statistics map are still valid and distinct. *)
Theorem MessageHandler_counts (msg : Message) (st : State) :
  stats_wf st ->
  let st' := (MessageHandler X msg st).1 in
  stats_wf st' /\
  (forall sn,
     mqttCount st' sn =
     if decide (sn = getSnFromTopic (Topic msg))
     then wrap_uint64 (mqttCount st sn + 1) else mqttCount st sn) /\
  mqttStatMap st' =
  <[Topic msg := match mqttStatMap st !! Topic msg with
                 | Some e => wrap_int (e + 1)
                 | None => 1
                 end]> (mqttStatMap st).
Proof.
  intros Hwf st'. destruct (MessageHandler_stats msg st Hwf) as [Hwf' Hcount].
  split_and!; [done..|]. subst st'.
  destruct (MessageHandler_same_stats msg st) as (_ & _ & ->).
  unfold recordBrokerMessage, bind, GetStatEntry.
  by destruct (mapStatMqtt st !! _).
Qed.

Lemma mqttCount_range (st : State) (sn : string) :
  stats_wf st -> 0 <= mqttCount st sn < 2 ^ 64.
Proof.
  intros [_ _ Hrange]. unfold mqttCount.
  destruct (mapStatMqtt st !! sn) as [p|]; [|lia].
  destruct (heap st !! p) as [s|] eqn:Hp; [|lia].
  rewrite Forall_forall in Hrange. apply Hrange.
  by eapply list_elem_of_lookup_2.
Qed.

(** Messages handled one after the other: when all of them have been handled
    without a panic, the broker counter of each device has grown by the
    number of messages on topics of that device (modulo 2^64). *)
Theorem handleMessages_counts (msgs : list Message) (st st' : State) :
  stats_wf st ->
  handleMessages X msgs st = (st', Returns tt) ->
  stats_wf st' /\
  forall sn,
    mqttCount st' sn
    = wrap_uint64 (mqttCount st sn + Z.of_nat (length (messagesOf sn msgs))).
Proof.
  unfold handleMessages. revert st.
  induction msgs as [|msg msgs IH]; intros st Hwf Hrun.
  - cbn in Hrun. unfold ret in Hrun. simplify_eq. split; [done|].
    intros sn. cbn.
    pose proof (mqttCount_range st' sn Hwf).
    unfold wrap_uint64. rewrite Z.add_0_r, Z.mod_small; lia.
  - cbn [forEach] in Hrun. unfold bind in Hrun.
    destruct (MessageHandler_stats msg st Hwf) as [Hwf1 Hcount].
    destruct (MessageHandler X msg st) as [st1 [[]|reason]]; [|done].
    cbn in Hwf1, Hcount.
    destruct (IH st1 Hwf1 Hrun) as [Hwf' Hcount']. split; [done|].
    intros sn. rewrite Hcount', Hcount. unfold messagesOf.
    rewrite filter_cons. case_decide as Hsn.
    + rewrite decide_True by done. cbn [length].
      unfold wrap_uint64. rewrite Zplus_mod_idemp_l. f_equal. lia.
    + by rewrite decide_False by done.
Qed.

End StatsFacts.

Lemma stats_wf_started : stats_wf started.
Proof.
  split; cbn.
  - intros sn p H. by rewrite lookup_empty in H.
  - intros sn1 sn2 p H. by rewrite lookup_empty in H.
  - constructor.
Qed.

Lemma MessageHandler_counts_witness :
  stats_wf started /\
  mqttCount (MessageHandler telemetry params5Message started).1 "DEV1" = 1 /\
  mqttCount (MessageHandler telemetry params5Message started).1 "DEV2" = 0.
Proof.
  split; [exact stats_wf_started|].
  destruct (MessageHandler_counts telemetry params5Message started
              stats_wf_started) as (_ & Hcount & _).
  split; rewrite Hcount; vm_compute; reflexivity.
Defined.

Lemma handleMessages_counts_witness :
  stats_wf started /\
  exists st',
    handleMessages (exampleTelemetry false) [exampleMessage; exampleMessage]
      started = (st', Returns tt) /\
    mqttCount st' "DEV1" = 2.
Proof.
  split; [exact stats_wf_started|].
  assert (Hout : (handleMessages (exampleTelemetry false)
                    [exampleMessage; exampleMessage] started).2 = Returns tt)
    by (vm_compute; reflexivity).
  destruct (handleMessages (exampleTelemetry false)
              [exampleMessage; exampleMessage] started) as [st' o] eqn:Hrun.
  simpl in Hout. subst o. exists st'. split; [reflexivity|].
  destruct (handleMessages_counts _ _ _ _ stats_wf_started Hrun) as [_ Hcount].
  rewrite Hcount. vm_compute; reflexivity.
Defined.

(** [GetStatEntry] is an insert-if-absent: it always returns, the map then
    holds the returned entry for the serial number, a second call returns the
    same entry and changes nothing, and the entries of other serial numbers
    are left alone. *)
Theorem GetStatEntry_insert_if_absent (serialNumber : string) (st : State) :
  exists stat st1,
    GetStatEntry serialNumber st = (st1, Returns stat) /\
    mapStatMqtt st1 !! serialNumber = Some stat /\
    GetStatEntry serialNumber st1 = (st1, Returns stat) /\
    (forall s, mapStatMqtt st !! serialNumber = Some s -> stat = s /\ st1 = st) /\
    (forall sn, sn <> serialNumber ->
       mapStatMqtt st1 !! sn = mapStatMqtt st !! sn) /\
    (mapStatMqtt st !! serialNumber = None ->
     heap st1 !! stat = Some {| mqttCounter := 0; httpCounter := 0 |} /\
     forall p, (p < length (heap st))%nat -> heap st1 !! p = heap st !! p).
Proof.
  unfold GetStatEntry.
  destruct (mapStatMqtt st !! serialNumber) as [s|] eqn:Hs.
  - exists s, st. rewrite Hs. split_and!; try done.
    intros s' [= <-]. done.
  - eexists _, _. split; [reflexivity|]. cbn.
    rewrite lookup_insert_eq. split_and!; try done.
    + intros sn Hsn. by rewrite lookup_insert_ne.
    + intros _. split.
      * by rewrite lookup_app_r, Nat.sub_diag.
      * intros p Hp. by rewrite lookup_app_l.
Qed.

(** ** Further facts: the two branches of the handler *)

Section BranchFacts.
Context (X : Externals).

(** A payload that is not JSON, with a handler installed: the handler
    returns, and what it delivers is the records of the first frame followed,
    when bytes remain after the first marker, by the records of the second
    frame; no slice expression goes out of range, and bytes after the second
    marker are not decoded. *)
Theorem MessageHandler_binary_records (msg : Message) (st : State) (e : error) :
  let sn := getSnFromTopic (Topic msg) in
  let payload := Payload msg in
  json_Unmarshal_map X payload = Err e ->
  caller st = hook_set ->
  MessageHandler X msg st =
  (add_events (recordBrokerMessage msg st).1
     (map CallHandlerEvent
        (frameRecords X sn (firstFrame sn payload) ++
         if decide (len payload > bytes_Index payload sn + len sn)
         then frameRecords X sn (secondFrame sn payload) else [])),
   Returns tt).
Proof.
  intros sn payload Hjson Hc.
  rewrite MessageHandler_unfold. fold payload sn. rewrite Hjson.
  destruct (recordBrokerMessage_returns msg st) as (_ & Hc' & _ & _).
  apply handleBinary_frames. congruence.
Qed.

(** Without a handler, a frame is survived only if it has no record. *)
Lemma DisplayPayload_no_handler (sn frame : string) (st : State) :
  caller st = hook_nil ->
  (frameRecords X sn frame = [] /\
   exists b, DisplayPayload X sn frame st = (st, Returns b)) \/
  (frameRecords X sn frame <> [] /\
   DisplayPayload X sn frame st = (st, Panics nilDereference)).
Proof.
  intros Hc. unfold DisplayPayload, frameRecords.
  destruct (proto_Unmarshal_SendHeaderMsg X frame) as [[[msg|]]|]; cbn [Msg GetCmdId].
  - case_decide.
    { destruct (proto_Unmarshal_InverterHeartbeat X _) as [ih|].
      - right. split; [done|]. unfold bind, CallHandler. by rewrite Hc.
      - left. split; [done|]. by exists true. }
    case_decide.
    { destruct (proto_Unmarshal_PowerPack X _) as [pp|].
      - destruct (SysPowerStream pp) as [|p ps].
        + left. split; [done|]. by exists true.
        + right. split; [done|]. cbn [forEach]. unfold bind, CallHandler.
          by rewrite Hc.
      - left. split; [done|]. by exists true. }
    left. split; [done|]. by exists false.
  - rewrite !decide_False by done. left. split; [done|]. by exists false.
  - left. split; [done|]. by exists true.
Qed.

Lemma handleBinary_no_handler (sn payload : string) (st : State) :
  caller st = hook_nil ->
  handleBinary X sn payload st =
  (st,
   if decide ((frameRecords X sn (firstFrame sn payload) ++
               (if decide (len payload > bytes_Index payload sn + len sn)
                then frameRecords X sn (secondFrame sn payload) else []))%list
              = [])
   then Returns tt else Panics nilDereference).
Proof.
  intros Hcaller.
  pose proof (firstEnd_bounds sn payload) as Hf.
  pose proof (secondEnd_bounds sn payload) as Hs.
  unfold handleBinary. cbv zeta.
  change (if decide (bytes_Index payload sn <> -1)
          then bytes_Index payload sn + len sn else len payload)
    with (firstEnd sn payload).
  unfold bind at 1. unfold must_slice at 1.
  rewrite slice_in_bounds by lia. cbn [ret].
  rewrite Z.sub_0_r. change (Z.to_nat 0) with 0%nat.
  fold (firstFrame sn payload). unfold bind at 1.
  destruct (DisplayPayload_no_handler sn (firstFrame sn payload) st Hcaller)
    as [[Hfirst [b ->]]|[Hfirst ->]].
  2: { rewrite decide_False; [done|]. by intros [? _]%app_eq_nil. }
  rewrite Hfirst. cbn [app].
  case_decide as Hmore; [|by rewrite decide_True].
  unfold bind at 1. unfold must_slice at 1.
  rewrite slice_in_bounds by lia. cbn [ret].
  change (if decide (bytes_Index (String.substring _ _ payload) sn <> -1)
          then _ else len payload) with (secondEnd sn payload).
  unfold bind at 1. unfold must_slice at 1.
  rewrite slice_in_bounds by lia. cbn [ret].
  fold (secondFrame sn payload). unfold bind at 1.
  destruct (DisplayPayload_no_handler sn (secondFrame sn payload) st Hcaller)
    as [[Hsecond [b' ->]]|[Hsecond ->]].
  - by rewrite decide_True.
  - by rewrite decide_False.
Qed.

(** When the application has installed neither collaborator, the handler
    returns normally only for a payload that is not JSON and whose frames
    carry no record; every message that has something to deliver ends in a
    panic. Nothing is delivered either way. *)
Theorem MessageHandler_without_collaborators (msg : Message) (st : State) :
  let sn := getSnFromTopic (Topic msg) in
  let payload := Payload msg in
  caller st = hook_nil ->
  Callback st = hook_nil ->
  trace (MessageHandler X msg st).1 = trace st /\
  ((MessageHandler X msg st).2 = Returns tt ->
   (exists e, json_Unmarshal_map X payload = Err e) /\
   frameRecords X sn (firstFrame sn payload) = [] /\
   (len payload > bytes_Index payload sn + len sn ->
    frameRecords X sn (secondFrame sn payload) = [])).
Proof.
  intros sn payload Hcaller Hcallback.
  rewrite MessageHandler_unfold. fold payload sn.
  destruct (recordBrokerMessage_returns msg st) as (_ & Hc1 & Hc2 & Htr).
  rewrite <- Hc1 in Hcaller. rewrite <- Hc2 in Hcallback. rewrite <- Htr.
  clear Hc1 Hc2 Htr. revert Hcaller Hcallback.
  generalize (recordBrokerMessage msg st).1. intros st1 Hcaller Hcallback.
  destruct (json_Unmarshal_map X payload) as [data|e].
  - unfold handleJSON, bind.
    destruct (debugEnvelope_cases X data st1) as [->|(reason & _ & ->)];
      [|by split].
    assert (Hcb : forall d, callCallback sn d st1 = (st1, Panics nilDereference))
      by (intros d; unfold callCallback; by rewrite Hcallback).
    destruct (mapaccess data "params") as [[]|]; cbn; rewrite ?Hcb; by split.
  - rewrite handleBinary_no_handler by done. cbn [fst snd].
    split; [done|]. case_decide as Hnone; [|done]. intros _.
    apply app_eq_nil in Hnone as [Hfirst Hsecond].
    split_and!; [by exists e|done|]. intros Hmore.
    by rewrite decide_True in Hsecond.
Qed.


End BranchFacts.

Lemma MessageHandler_binary_records_witness :
  json_Unmarshal_map telemetry (Payload twoFramesMessage)
  = Err "invalid character" /\
  MessageHandler telemetry twoFramesMessage started =
  (add_events (recordBrokerMessage twoFramesMessage started).1
     [CallHandlerEvent {| entryObject := InverterHeartbeatObject heartbeat;
                          serialNumber := "DEV1" |}], Returns tt).
Proof.
  assert (Hjson : json_Unmarshal_map telemetry (Payload twoFramesMessage)
                  = Err "invalid character") by (vm_compute; reflexivity).
  split; [exact Hjson|].
  rewrite (MessageHandler_binary_records telemetry twoFramesMessage started
             _ Hjson eq_refl).
  vm_compute; reflexivity.
Defined.

Lemma MessageHandler_without_collaborators_witness :
  let st := {| caller := hook_nil; Callback := hook_nil; mqttStatMap := ∅;
               mapStatMqtt := ∅; heap := []; trace := [] |} in
  caller st = hook_nil /\ Callback st = hook_nil /\
  (MessageHandler telemetry twoFramesMessage st).2 = Panics nilDereference /\
  trace (MessageHandler telemetry twoFramesMessage st).1 = [].
Proof.
  intros st. split; [reflexivity|]. split; [reflexivity|].
  split; [vm_compute; reflexivity|].
  exact (proj1 (MessageHandler_without_collaborators telemetry twoFramesMessage
                  st eq_refl eq_refl)).
Defined.


(** ** Further facts: the framing of binary payloads *)





(** ** Further facts: the columns for the database *)

Lemma insertMqttData_loop_spec (Y : MoreExternals) (data : gomap)
    (keys fields : list string) (columns : list column) :
  insertMqttData_loop Y data keys fields columns
  = ((fields ++ (fieldName <$> keys))%list,
     (columns ++ flat_map (fun k => columnsOf Y (default VNil (mapaccess data k)))
                   keys)%list).
Proof.
  revert fields columns. induction keys as [|k keys IH]; intros fields columns.
  - by rewrite !app_nil_r.
  - cbn [insertMqttData_loop]. rewrite IH. cbn [fmap list_fmap flat_map].
    by rewrite <- !(assoc_L (++)).
Qed.

Lemma mapaccess_Some_iff (m : gomap) (k : string) (v : value) :
  NoDup m.*1 -> mapaccess m k = Some v <-> (k, v) ∈ m.
Proof.
  induction m as [|[k' v'] m IH]; cbn; intros Hnd.
  - split; [done|]. by intros ?%elem_of_nil.
  - apply NoDup_cons in Hnd as [Hk' Hnd]. rewrite elem_of_cons.
    case_decide as Hk.
    + subst k'. split; [intros [= ->]; by left|].
      intros [[= ->]|Hin]; [done|]. destruct Hk'.
      apply list_elem_of_fmap. by exists (k, v).
    + rewrite (IH Hnd). split; [by right|]. intros [[= -> ->]|?]; done.
Qed.

Lemma mapaccess_Permutation (m m' : gomap) (k : string) :
  NoDup m.*1 -> m ≡ₚ m' -> mapaccess m k = mapaccess m' k.
Proof.
  intros Hnd Hp. apply option_eq. intros v.
  rewrite !mapaccess_Some_iff; [by rewrite Hp|by rewrite <- Hp|done].
Qed.

Lemma columnsOf_length (Y : MoreExternals) (v : value) :
  length (columnsOf Y v) = if storable v then 1%nat else 0%nat.
Proof.
  destruct v; simpl; try done.
  - by destruct (json_Marshal_composite Y _).
  - by destruct (json_Marshal_composite Y _).
  - by destruct (PrimFloat.eqb _ _).
Qed.

Lemma columns_length (Y : MoreExternals) (data l : list (string * value)) :
  NoDup data.*1 -> l ⊆ data ->
  length (flat_map (fun k => columnsOf Y (default VNil (mapaccess data k))) l.*1)
  = length (filter (fun kv => storable kv.2 = true) l).
Proof.
  intros Hnd. induction l as [|[k v] l IH]; intros Hl; [done|].
  cbn [fmap list_fmap flat_map fst]. rewrite length_app, IH by set_solver.
  assert (Hk : mapaccess data k = Some v).
  { apply mapaccess_Some_iff; [done|]. apply Hl. by left. }
  rewrite Hk. change (default VNil (Some v)) with v. rewrite columnsOf_length.
  destruct (storable v) eqn:Hv.
  - rewrite filter_cons_True; [simpl; lia|exact Hv].
  - rewrite filter_cons_False; [simpl; lia|]. cbn. by rewrite Hv.
Qed.

(** [insertMqttData] names one field per key, but appends a column only for
    strings, numbers, times, slices and maps: a member that is a boolean or
    null (or an [int]) gets a field and no column. The row is as long as the
    list of fields exactly when every value is of a stored type; otherwise
    the columns after the first such member stand under the wrong field. *)
Theorem insertMqttData_alignment (Y : MoreExternals)
    (data : list (string * value)) :
  NoDup data.*1 ->
  exists columns,
    (insertMqttData Y data).2 = [columns] /\
    length (insertMqttData Y data).1 = length data /\
    length columns = length (filter (fun kv => storable kv.2 = true) data) /\
    (length columns = length (insertMqttData Y data).1 <->
     Forall (fun kv => storable kv.2 = true) data).
Proof.
  intros Hnd. unfold insertMqttData. rewrite insertMqttData_loop_spec.
  cbn [fst snd app]. eexists. split; [done|].
  assert (Hperm : sort_Strings data.*1 ≡ₚ data.*1) by apply merge_sort_Permutation.
  assert (Hlen : length (flat_map
                   (fun k => columnsOf Y (default VNil (mapaccess data k)))
                   (sort_Strings data.*1))
                 = length (filter (fun kv => storable kv.2 = true) data)).
  { rewrite <- (columns_length Y data data Hnd) by done.
    apply Permutation_length, Permutation_flat_map, Hperm. }
  rewrite Hlen, length_fmap, Hperm, length_fmap. split_and!; [done..|].
  clear. induction data as [|kv data IH]; [by split; [constructor|]|].
  rewrite filter_cons, Forall_cons. cbn [length].
  pose proof (length_filter (fun kv => storable kv.2 = true) data).
  case_decide as Hkv; cbn [length].
  - rewrite <- IH. split; [intros [=]; by split|intros [_ ->]; done].
  - split; [lia|]. by intros [? _].
Qed.

(** The fields and the row do not depend on the order in which the map is
    iterated: the keys are sorted before anything is built. *)
Theorem insertMqttData_order_irrelevant (Y : MoreExternals)
    (data data' : list (string * value)) :
  NoDup data.*1 ->
  data ≡ₚ data' ->
  insertMqttData Y data = insertMqttData Y data'.
Proof.
  intros Hnd Hp. unfold insertMqttData. rewrite !insertMqttData_loop_spec.
  assert (Hkeys : sort_Strings data.*1 = sort_Strings data'.*1).
  { apply sort_Strings_Permutation. by rewrite Hp. }
  rewrite <- Hkeys. do 2 f_equal. f_equal.
  apply flat_map_ext. intros k. by rewrite (mapaccess_Permutation data data').
Qed.

Lemma insertMqttData_alignment_witness :
  let data := [("b", VBool true); ("a.x", VString "v")] in
  NoDup data.*1 /\
  insertMqttData noCommands data = (["eco_a_x"; "eco_b"], [[ColString "v"]]) /\
  exists columns,
    (insertMqttData noCommands data).2 = [columns] /\
    length columns = 1%nat /\
    length (insertMqttData noCommands data).1 = 2%nat.
Proof.
  intros data.
  assert (Hnd : NoDup data.*1) by (apply (bool_decide_unpack _); vm_compute; exact I).
  split; [exact Hnd|]. split; [vm_compute; reflexivity|].
  destruct (insertMqttData_alignment noCommands data Hnd)
    as (columns & Hrow & Hfields & Hcols & _).
  exists columns. split; [exact Hrow|]. split; [rewrite Hcols|rewrite Hfields];
    vm_compute; reflexivity.
Defined.

Lemma insertMqttData_order_irrelevant_witness :
  let data := [("b", VBool true); ("a.x", VString "v")] in
  let data' := [("a.x", VString "v"); ("b", VBool true)] in
  NoDup data.*1 /\ data ≡ₚ data' /\
  insertMqttData noCommands data = insertMqttData noCommands data'.
Proof.
  intros data data'.
  assert (Hnd : NoDup data.*1) by (apply (bool_decide_unpack _); vm_compute; exact I).
  assert (Hp : data ≡ₚ data') by apply perm_swap.
  split; [exact Hnd|]. split; [exact Hp|].
  exact (insertMqttData_order_irrelevant noCommands data data' Hnd Hp).
Defined.

(** ** Further facts: witnesses for the interleaving semantics *)

Lemma recordings_on_known_device_witness :
  Interleaving.smap knownMemory !! "DEV1" = Some 0%nat /\
  exists s',
    Interleaving.run "DEV1" knownSchedule knownMemory
      (replicate 2 Interleaving.AtLookup)
    = Some (s', [Interleaving.Done; Interleaving.Done]) /\
    Interleaving.counter "DEV1" s' = Some 7.
Proof.
  assert (Hmap : Interleaving.smap knownMemory !! "DEV1" = Some 0%nat)
    by (vm_compute; reflexivity).
  split; [exact Hmap|].
  assert (Hthreads :
    snd <$> Interleaving.run "DEV1" knownSchedule knownMemory
              (replicate 2 Interleaving.AtLookup)
    = Some [Interleaving.Done; Interleaving.Done]) by (vm_compute; reflexivity).
  destruct (Interleaving.run "DEV1" knownSchedule knownMemory
              (replicate 2 Interleaving.AtLookup)) as [[s' threads']|] eqn:Hrun;
    [|discriminate Hthreads].
  injection Hthreads as ->. exists s'. split; [reflexivity|].
  rewrite (InterleavingFacts.recordings_on_known_device "DEV1" 0 2 knownSchedule
             knownMemory s' _ _ Hmap eq_refl eq_refl ltac:(simpl; lia) Hrun
             eq_refl).
  reflexivity.
Defined.

Lemma recordBrokerMessage_alone_witness :
  (forall p, mapStatMqtt started !! getSnFromTopic (Topic params5Message) = Some p ->
     is_Some (heap started !! p)) /\
  exists sched,
    Interleaving.run "DEV1" sched (shared_of started) [Interleaving.AtLookup]
    = Some (shared_of (recordBrokerMessage params5Message started).1,
            [Interleaving.Done]).
Proof.
  assert (Hvalid : forall p,
    mapStatMqtt started !! getSnFromTopic (Topic params5Message) = Some p ->
    is_Some (heap started !! p)).
  { intros p Hp. simpl in Hp. rewrite lookup_empty in Hp. discriminate Hp. }
  split; [exact Hvalid|].
  exact (InterleavingFacts.recordBrokerMessage_alone params5Message started Hvalid).
Defined.
